(** * GnLBuildCred: login, retrying fetchers and the CSV orchestrator

    A shallow embedding of [src/GnLBuildCred.py].  The script talks to the
    outside world (environment variables, a clock for the one-time code, an
    HTTP server, the file system and the console); here the outside world is
    a [World] of oracles, and the script's functions are programs of a small
    state-and-exception monad whose state is the chronological list of
    observable events plus the file store. *)

From stdpp Require Import base option list strings gmap fin_maps.
From Stdlib Require Import ZArith.

#[local] Set Warnings "-register-all".
Open Scope string_scope.
Open Scope list_scope.

(** ** JSON values, as [response.json()] hands them to the script *)

(** Numbers are kept to integers; an object keeps its members in document
    order (a later duplicate key overrides an earlier one, as in Python). *)
Inductive json :=
| JNull
| JBool (b : bool)
| JNum (z : Z)
| JStr (s : string)
| JArr (items : list json)
| JObj (members : list (string * json)).

(** Python truth value of a parsed JSON value. *)
Definition truthy (j : json) : bool :=
  match j with
  | JNull => false
  | JBool b => b
  | JNum z => negb (z =? 0)%Z
  | JStr s => negb (String.eqb s "")
  | JArr items => match items with [] => false | _ => true end
  | JObj members => match members with [] => false | _ => true end
  end.

(** The dict built from the members of an object. *)
Definition dict_of (members : list (string * json)) : gmap string json :=
  foldl (fun m kv => <[kv.1 := kv.2]> m) ∅ members.

(** Exceptions the script can meet.  All of them derive from [Exception];
    [HTTPError] is the only one the fetchers treat separately. *)
Inductive exn :=
| HTTPError
| RequestException (what : string)
| JSONDecodeError
| AttributeError
| ValueError
| UnboundLocalError.

(** [data.get(k)]: [inl AttributeError] when [data] is not a dict, otherwise
    the member or [None]. *)
Definition py_get (k : string) (data : json) : exn + option json :=
  match data with
  | JObj members => inr (dict_of members !! k)
  | _ => inl AttributeError
  end.

(** Truth value of an optional value ([None] is false). *)
Definition truthy_opt (o : option json) : bool :=
  match o with Some j => truthy j | None => false end.

(** ** Data frames *)

(** A frame has ordered column labels and rows; a cell that was never set is
    absent from its row. *)
Record DataFrame := mkFrame {
  columns : list string;
  rows : list (gmap string json)
}.

(** [pd.DataFrame()] *)
Definition empty_frame : DataFrame := mkFrame [] [].

(** [df.empty]: some axis has length zero. *)
Definition df_empty (df : DataFrame) : bool :=
  match columns df, rows df with
  | _ :: _, _ :: _ => false
  | _, _ => true
  end.

Definition add_column (c : string) (cols : list string) : list string :=
  if decide (c ∈ cols) then cols else cols ++ [c].

Definition add_columns (cs : list string) (cols : list string) : list string :=
  foldl (fun acc c => add_column c acc) cols cs.

(** [pd.DataFrame(records)] for a list of dicts: the columns are the keys in
    order of first appearance, one row per record. *)
Definition from_records (recs : list (list (string * json))) : DataFrame :=
  mkFrame (foldl (fun acc r => add_columns (r.*1) acc) [] recs)
          (dict_of <$> recs).

(** [df[c] = v] with a scalar [v]. *)
Definition set_col (c : string) (v : json) (df : DataFrame) : DataFrame :=
  mkFrame (add_column c (columns df)) ((fun r => <[c := v]> r) <$> rows df).

(** [pd.concat(frames, ignore_index=True)]: rows in order, column union,
    cells of columns a frame does not have stay unset. *)
Definition pd_concat (frames : list DataFrame) : DataFrame :=
  mkFrame (foldl (fun acc df => add_columns (columns df) acc) [] frames)
          (concat (rows <$> frames)).

(** The members of each element when [j] is an array of objects. *)
Definition as_object (j : json) : option (list (string * json)) :=
  match j with JObj members => Some members | _ => None end.

Definition records_of (j : json) : option (list (list (string * json))) :=
  match j with
  | JArr items => mapM as_object items
  | _ => None
  end.

(** ** Requests, replies and events *)

Inductive method := GET | POST.

(** Header values: a plain string, the f-string ["Bearer {token}"], or
    [None] (an environment variable that is not set). *)
Inductive hval :=
| HStr (s : string)
| HBearer (token : json)
| HNone.

Record request := mkRequest {
  req_method : method;
  req_url : string;
  req_headers : gmap string hval;
  req_json : option (list (string * string))
}.

Record Response := mkResponse {
  status_code : Z;
  body : option json   (* [None]: [response.json()] raises *)
}.

(** What [requests.post]/[requests.get] does: raise (a connection error,
    a timeout, or whatever a mock raises, [HTTPError] included), or return
    a response. *)
Inductive reply :=
| ReplyRaise (e : exn)
| ReplyResponse (r : Response).

(** The three labels a fetch tags its rows with. *)
Record tags := mkTags {
  tg_datatype : string;
  tg_expirytype : string;
  tg_endpoint : string
}.

(** Console lines, one constructor per [print] of the script. *)
Inductive log_msg :=
| MissingCredentials
| TotpError
| SessionInitialized
| SessionResponse (data : json)
| LoginFailed (message : json)
| FullSessionResponse (data : json)
| LoginFailedExc (e : exn)
| ResponseDump (t : tags) (data : json)
| Fetched (t : tags)
| NoDataReturned (t : tags) (data : json)
| HttpErrorLine (t : tags) (attempt total : nat)
| Forbidden403 (details : json)
| Retrying (delay : nat)
| FetchError (t : tags) (attempt total : nat) (e : exn)
| FetchFailed (t : tags) (total : nat)
| Fetching (t : tags)
| NoDataFetched (t : tags)
| Saved (file : string)
| NoDataToSave
| Completed.

Inductive event :=
| EvHttp (req : request) (rep : reply)
| EvSleep (seconds : nat)
| EvPrint (msg : log_msg).

(** ** The outside world *)

Record World := mkWorld {
  (** [os.getenv] *)
  getenv : string -> option string;
  (** [pyotp.TOTP(secret).now()] at the current point of the run;
      [None] when it raises *)
  totp_now : list event -> string -> option string;
  (** [getattr(obj, name, ...)] on a freshly built [SmartConnect] *)
  smart_attr : list event -> string -> option string;
  (** the HTTP server (or its mock), which may depend on everything that
      happened so far *)
  http : list event -> request -> reply;
  (** [pd.DataFrame(x)] for an [x] that is not an array of objects;
      [None] when it raises *)
  pd_other : json -> option DataFrame
}.

(** The session object ([SmartConnect]). *)
Record Session := mkSession {
  smart_api_key : string;
  access_token : json;
  attr : string -> option string
}.

(** ** The monad: events, files, and three ways to stop *)

Record Machine := mkMachine {
  trace : list event;
  files : gmap string DataFrame
}.

Inductive result (A : Type) :=
| Ret (a : A)          (* normal completion *)
| Exit                 (* [exit()]: the process terminates *)
| Raise (e : exn).     (* an exception on its way up *)
Arguments Ret {A} a.
Arguments Exit {A}.
Arguments Raise {A} e.

Definition M (A : Type) : Type := Machine -> result A * Machine.

Definition ret {A} (a : A) : M A := fun m => (Ret a, m).

Definition bind {A B} (c : M A) (k : A -> M B) : M B :=
  fun m =>
    match c m with
    | (Ret a, m') => k a m'
    | (Exit, m') => (Exit, m')
    | (Raise e, m') => (Raise e, m')
    end.

Definition exit {A} : M A := fun m => (Exit, m).
Definition raise {A} (e : exn) : M A := fun m => (Raise e, m).

Definition emit (e : event) : M unit :=
  fun m => (Ret tt, mkMachine (trace m ++ [e]) (files m)).

Definition print (msg : log_msg) : M unit := emit (EvPrint msg).
Definition sleep (seconds : nat) : M unit := emit (EvSleep seconds).

Definition history : M (list event) := fun m => (Ret (trace m), m).

(** [df.to_csv(file, index=False)]: the file now holds the frame. *)
Definition to_csv (file : string) (df : DataFrame) : M unit :=
  fun m => (Ret tt, mkMachine (trace m) (<[file := df]> (files m))).

Declare Scope prog_scope.
Delimit Scope prog_scope with prog.
Notation "'do' x <- c ; k" := (bind c (fun x => k))
  (at level 10, x name, c at level 100, k at level 200) : prog_scope.
Notation "c ;; k" := (bind c (fun _ => k))
  (at level 100, k at level 200, right associativity) : prog_scope.
Open Scope prog_scope.

(** ** The script *)

Section Script.

Variable w : World.

(** Truth value of what [os.getenv] returns. *)
Definition env_truthy (o : option string) : bool :=
  match o with
  | Some s => negb (String.eqb s "")
  | None => false
  end.

(** [getattr(obj, name, fallback)] *)
Definition getattr (obj : Session) (name fallback : string) : string :=
  default fallback (attr obj name).

(** [requests.post(...)] / [requests.get(...)]: ask the world, record the
    exchange. *)
Definition send (req : request) : M reply :=
  fun m =>
    let rep := http w (trace m) req in
    (Ret rep, mkMachine (trace m ++ [EvHttp req rep]) (files m)).

(** [response.raise_for_status()] raises for 4xx and 5xx. *)
Definition is_http_error (r : Response) : bool :=
  ((400 <=? status_code r) && (status_code r <? 600))%Z.

Definition login_url : string :=
  "https://apiconnect.angelone.in/rest/auth/angelbroking/user/v1/loginByMPin".

Definition login_headers (obj : Session) (key : string) : gmap string hval :=
  list_to_map
    [("Content-Type", HStr "application/json");
     ("Accept", HStr "application/json");
     ("X-UserType", HStr "USER");
     ("X-SourceID", HStr "WEB");
     ("X-ClientLocalIP", HStr (getattr obj "_client_local_ip" "127.0.0.1"));
     ("X-ClientPublicIP", HStr (getattr obj "_client_public_ip" "127.0.0.1"));
     ("X-MACAddress", HStr (getattr obj "_mac_address" "00:00:00:00:00:00"));
     ("X-PrivateKey", HStr key)].

(** [data.get('status') and data.get('data', {}).get('jwtToken')]:
    an exception, or the token when the conjunction is true. *)
Definition login_check (data : json) : exn + option json :=
  match py_get "status" data with
  | inl e => inl e
  | inr st =>
      if truthy_opt st then
        match py_get "data" data with
        | inl e => inl e
        | inr d =>
            match py_get "jwtToken" (default (JObj []) d) with
            | inl e => inl e
            | inr tok => inr (if truthy_opt tok then tok else None)
            end
        end
      else inr None
  end.

(** [data.get('message', 'Unknown error')] on a dict *)
Definition login_message (data : json) : json :=
  match py_get "message" data with
  | inr (Some msg) => msg
  | _ => JStr "Unknown error"
  end.

(** The login request: [url], [headers] and [payload] of the function, for
    the credentials read from the environment and the one-time code. *)
Definition login_request (now : list event) (totp : string) : request :=
  let api_key := default "" (getenv w "API_KEY") in
  let obj := mkSession api_key JNull (smart_attr w now) in
  mkRequest POST login_url (login_headers obj api_key)
    (Some [("clientcode", default "" (getenv w "USER_NAME"));
           ("mpin", default "" (getenv w "MPIN"));
           ("totp", totp)]).

Definition initialize_api : M Session :=
  let api_key := getenv w "API_KEY" in
  let user_name := getenv w "USER_NAME" in
  let mpin := getenv w "MPIN" in
  let totp_secret := getenv w "TOTP_SECRET" in
  if negb (forallb env_truthy [api_key; user_name; mpin; totp_secret]) then
    print MissingCredentials;; exit
  else
    do now <- history;
    match totp_now w now (default "" totp_secret) with
    | None => print TotpError;; exit
    | Some totp =>
        let obj := mkSession (default "" api_key) JNull (smart_attr w now) in
        do rep <- send (login_request now totp);
        match rep with
        | ReplyRaise e => print (LoginFailedExc e);; exit
        | ReplyResponse response =>
            if is_http_error response then
              print (LoginFailedExc HTTPError);; exit
            else
              match body response with
              | None => print (LoginFailedExc JSONDecodeError);; exit
              | Some data =>
                  match login_check data with
                  | inl e => print (LoginFailedExc e);; exit
                  | inr (Some token) =>
                      print SessionInitialized;;
                      print (SessionResponse data);;
                      ret (mkSession (smart_api_key obj) token (attr obj))
                  | inr None =>
                      print (LoginFailed (login_message data));;
                      print (FullSessionResponse data);;
                      exit
                  end
              end
        end
    end.

Definition market_url (endpoint : string) : string :=
  "https://apiconnect.angelone.in/rest/secure/angelbroking/marketData/v1/"
    ++ endpoint.

Definition env_header (o : option string) : hval :=
  match o with Some s => HStr s | None => HNone end.

Definition fetch_headers (api_obj : Session) : gmap string hval :=
  list_to_map
    [("Authorization", HBearer (access_token api_obj));
     ("Content-Type", HStr "application/json");
     ("Accept", HStr "application/json");
     ("X-UserType", HStr "USER");
     ("X-SourceID", HStr "WEB");
     ("X-ClientLocalIP", HStr (getattr api_obj "_client_local_ip" "127.0.0.1"));
     ("X-ClientPublicIP", HStr (getattr api_obj "_client_public_ip" "127.0.0.1"));
     ("X-MACAddress", HStr (getattr api_obj "_mac_address" "00:00:00:00:00:00"));
     ("X-PrivateKey", env_header (getenv w "API_KEY"))].

(** [data.get("status") and "data" in data and data["data"]]:
    an exception, or the data when the conjunction is true. *)
Definition fetch_check (data : json) : exn + option json :=
  match py_get "status" data with
  | inl e => inl e
  | inr st =>
      if truthy_opt st then
        match py_get "data" data with
        | inr (Some d) => inr (if truthy d then Some d else None)
        | inr None => inr None
        | inl e => inl e
        end
      else inr None
  end.

(** [pd.DataFrame(x)] *)
Definition pd_DataFrame (x : json) : option DataFrame :=
  match records_of x with
  | Some recs => Some (from_records recs)
  | None => pd_other w x
  end.

(** The three assignments [df['DataType'] = ...], [df['ExpiryType'] = ...],
    [df['Endpoint'] = ...]. *)
Definition tag (t : tags) (df : DataFrame) : DataFrame :=
  set_col "Endpoint" (JStr (tg_endpoint t))
    (set_col "ExpiryType" (JStr (tg_expirytype t))
       (set_col "DataType" (JStr (tg_datatype t)) df)).

(** The two fetchers have the same loop; it is written once here, over the
    request they send and the labels they tag with.  [retries] counts the
    additional attempts and [delay] the seconds between them (both 2 by
    default, and in every call the script makes). *)
Section Fetch.

Variables (mth : method) (url : string)
          (payload : option (list (string * string))) (t : tags)
          (retries delay : nat).

(** The [try] body after [raise_for_status()] passed. *)
Definition on_response (attempt : nat) (response : Response) : M DataFrame :=
  match body response with
  | None =>
      print (FetchError t (S attempt) (S retries) JSONDecodeError);;
      ret empty_frame
  | Some data =>
      print (ResponseDump t data);;
      match fetch_check data with
      | inl e =>
          print (FetchError t (S attempt) (S retries) e);; ret empty_frame
      | inr (Some d) =>
          print (Fetched t);;
          match pd_DataFrame d with
          | Some df => ret (tag t df)
          | None =>
              print (FetchError t (S attempt) (S retries) ValueError);;
              ret empty_frame
          end
      | inr None =>
          print (NoDataReturned t data);; ret empty_frame
      end
  end.

(** The [except requests.exceptions.HTTPError] handler, in its three steps.
    [response] is the local variable of that name: unbound until a request
    of this call has returned. *)

(** [if response.status_code == 403: print(... response.json() ...)] *)
Definition forbidden_details (response : option Response) : M unit :=
  match response with
  | None => raise UnboundLocalError
  | Some r =>
      if (status_code r =? 403)%Z then
        match body r with
        | None => raise JSONDecodeError
        | Some details => print (Forbidden403 details)
        end
      else ret tt
  end.

(** [if attempt < retries: ...]: sleep, log in again, replace the token
    header.  The result is the new value of the local [api_obj] and of
    [headers]. *)
Definition refresh_session (attempt : nat) (api_obj : Session)
    (headers : gmap string hval) : M (Session * gmap string hval) :=
  if (attempt <? retries)%nat then
    print (Retrying delay);;
    sleep delay;;
    do api_obj' <- initialize_api;
    ret (api_obj',
         <["Authorization" := HBearer (access_token api_obj')]> headers)
  else ret (api_obj, headers).

Definition on_http_error (attempt : nat) (api_obj : Session)
    (headers : gmap string hval) (response : option Response)
    : M (Session * gmap string hval) :=
  print (HttpErrorLine t (S attempt) (S retries));;
  forbidden_details response;;
  refresh_session attempt api_obj headers.

(** [for attempt in range(retries + 1)], with [todo] iterations left. *)
Fixpoint attempts (todo attempt : nat) (api_obj : Session)
    (headers : gmap string hval) (response : option Response)
    : M DataFrame :=
  match todo with
  | O => print (FetchFailed t (S retries));; ret empty_frame
  | S todo' =>
      do rep <- send (mkRequest mth url headers payload);
      match rep with
      | ReplyResponse r =>
          if is_http_error r then
            do sh <- on_http_error attempt api_obj headers (Some r);
            attempts todo' (S attempt) sh.1 sh.2 (Some r)
          else on_response attempt r
      | ReplyRaise HTTPError =>
          do sh <- on_http_error attempt api_obj headers response;
          attempts todo' (S attempt) sh.1 sh.2 response
      | ReplyRaise e =>
          print (FetchError t (S attempt) (S retries) e);; ret empty_frame
      end
  end.

End Fetch.

Definition fetch_post_data (api_obj : Session)
    (endpoint datatype expirytype : string) (retries delay : nat)
    : M DataFrame :=
  attempts POST (market_url endpoint)
    (Some [("datatype", datatype); ("expirytype", expirytype)])
    (mkTags datatype expirytype endpoint) retries delay
    (S retries) 0 api_obj (fetch_headers api_obj) None.

Definition pcr_tags : tags := mkTags "PCR Volume" "N/A" "putCallRatio".

Definition fetch_pcr_volume (api_obj : Session) (retries delay : nat)
    : M DataFrame :=
  attempts GET (market_url "putCallRatio") None pcr_tags retries delay
    (S retries) 0 api_obj (fetch_headers api_obj) None.

(** *** Main execution *)

Definition OUTPUT_FILE : string := "AngelMarketData.csv".

Definition endpoints : list (string * list string) :=
  [("gainersLosers",
    ["PercOIGainers"; "PercOILosers"; "PercPriceGainers"; "PercPriceLosers"]);
   ("OIBuildup",
    ["Long Built Up"; "Short Built Up"; "Short Covering"; "Long Unwinding"])].

Definition expiry_types : list string := ["NEAR"; "NEXT"; "FAR"].

(** A [for] loop that threads the variables its body updates. *)
Fixpoint for_each {A S : Type} (xs : list A) (loop_body : A -> S -> M S)
    (s : S) : M S :=
  match xs with
  | [] => ret s
  | x :: xs' => do s' <- loop_body x s; for_each xs' loop_body s'
  end.

(** What the orchestrator does with the frame a fetch returned. *)
Definition collect (t : tags) (df : DataFrame) (all_data : list DataFrame)
    : M (list DataFrame) :=
  do all_data' <-
    (if negb (df_empty df) then ret (all_data ++ [df])
     else print (NoDataFetched t);; ret all_data);
  sleep 1;;
  ret all_data'.

Definition post_call (api_obj : Session) (endpoint expiry datatype : string)
    (all_data : list DataFrame) : M (list DataFrame) :=
  print (Fetching (mkTags datatype expiry endpoint));;
  do df <- fetch_post_data api_obj endpoint datatype expiry 2 2;
  collect (mkTags datatype expiry endpoint) df all_data.

(** The three nested loops over endpoints, expiry types and datatypes. *)
Definition fetch_gainers_oi (api_obj : Session) (all_data : list DataFrame)
    : M (list DataFrame) :=
  for_each endpoints (fun ep =>
    for_each expiry_types (fun expiry =>
      for_each ep.2 (fun datatype =>
        post_call api_obj ep.1 expiry datatype))) all_data.

Definition pcr_call (api_obj : Session) (all_data : list DataFrame)
    : M (list DataFrame) :=
  print (Fetching pcr_tags);;
  do df <- fetch_pcr_volume api_obj 2 2;
  collect pcr_tags df all_data.

(** [if all_data: ... else: ...] *)
Definition combine_and_save (all_data : list DataFrame) : M unit :=
  match all_data with
  | _ :: _ =>
      to_csv OUTPUT_FILE (pd_concat all_data);;
      print (Saved OUTPUT_FILE)
  | [] => print NoDataToSave
  end.

Definition main : M unit :=
  do api_obj <- initialize_api;
  do all_data <- fetch_gainers_oi api_obj [];
  do all_data <- pcr_call api_obj all_data;
  combine_and_save all_data;;
  print Completed.

End Script.

(** *** The file as a whole *)

(** Running the file executes the [import] statements of lines 1-9 and
    then, as the main module, the main execution.  What importing the
    libraries does is not written in this file: it is the parameter
    [importing], a program like any other (it may send requests, raise or
    end the process).  [getenv] already is the environment [load_dotenv()]
    leaves. *)
Definition script (importing : M unit) (w : World) : M unit :=
  importing;; main w.

(** ** Vocabulary of the statements *)

(** The four configuration values the script requires. *)
Definition required : list string :=
  ["API_KEY"; "USER_NAME"; "MPIN"; "TOTP_SECRET"].

Definition is_login (req : request) : bool :=
  String.eqb (req_url req) login_url.

(** The requests sent during a run, in order. *)
Definition network_calls (t : list event) : list request :=
  omap (fun e => match e with EvHttp req _ => Some req | _ => None end) t.

(** The requests sent to the market-data endpoints. *)
Definition data_calls (t : list event) : list request :=
  filter (fun req => is_login req = false) (network_calls t).

(** The requests sent to the login endpoint. *)
Definition login_calls (t : list event) : list request :=
  filter (fun req => is_login req = true) (network_calls t).

(** The request an iteration of the POST fetcher sends. *)
Definition post_request (headers : gmap string hval)
    (endpoint datatype expirytype : string) : request :=
  mkRequest POST (market_url endpoint) headers
    (Some [("datatype", datatype); ("expirytype", expirytype)]).

(** One more event on a machine. *)
Definition logged (m : Machine) (l : list event) : Machine :=
  mkMachine (trace m ++ l) (files m).

(** The console lines the authenticator ends the process with. *)
Definition failure_line (msg : log_msg) : bool :=
  match msg with
  | MissingCredentials | TotpError | LoginFailedExc _
  | FullSessionResponse _ => true
  | _ => false
  end.

(** The ways the authenticator can fail, at the point [now] of a run. *)
Inductive auth_failure (w : World) (now : list event) : Prop :=
| missing_config :
    forallb env_truthy
      [getenv w "API_KEY"; getenv w "USER_NAME"; getenv w "MPIN";
       getenv w "TOTP_SECRET"] = false ->
    auth_failure w now
| totp_error :
    totp_now w now (default "" (getenv w "TOTP_SECRET")) = None ->
    auth_failure w now
| request_raised totp e :
    totp_now w now (default "" (getenv w "TOTP_SECRET")) = Some totp ->
    http w now (login_request w now totp) = ReplyRaise e ->
    auth_failure w now
| error_status totp r :
    totp_now w now (default "" (getenv w "TOTP_SECRET")) = Some totp ->
    http w now (login_request w now totp) = ReplyResponse r ->
    is_http_error r = true ->
    auth_failure w now
| malformed_body totp r :
    totp_now w now (default "" (getenv w "TOTP_SECRET")) = Some totp ->
    http w now (login_request w now totp) = ReplyResponse r ->
    body r = None ->
    auth_failure w now
| unexpected_body totp r data e :
    totp_now w now (default "" (getenv w "TOTP_SECRET")) = Some totp ->
    http w now (login_request w now totp) = ReplyResponse r ->
    body r = Some data ->
    login_check data = inl e ->
    auth_failure w now
| login_refused totp r data :
    totp_now w now (default "" (getenv w "TOTP_SECRET")) = Some totp ->
    http w now (login_request w now totp) = ReplyResponse r ->
    body r = Some data ->
    login_check data = inr None ->
    auth_failure w now.

(** The 403 details line can be written: the response is not a 403, or its
    body parses. *)
Definition details_loggable (r : Response) : bool :=
  negb (status_code r =? 403)%Z ||
  match body r with Some _ => true | None => false end.

(** What the handler prints about a response that [details_loggable]. *)
Definition details_lines (r : Response) : list event :=
  if (status_code r =? 403)%Z then
    match body r with
    | Some details => [EvPrint (Forbidden403 details)]
    | None => []
    end
  else [].

(** The bodies the 403 details lines of a run show, in order. *)
Definition details_printed (t : list event) : list json :=
  omap (fun e =>
          match e with
          | EvPrint (Forbidden403 details) => Some details
          | _ => None
          end) t.





(** The records the market-data endpoints served during a run. *)
Definition reply_records (rep : reply) : list (list (string * json)) :=
  match rep with
  | ReplyResponse r =>
      if is_http_error r then []
      else match body r with
           | Some data =>
               match fetch_check data with
               | inr (Some d) => default [] (records_of d)
               | _ => []
               end
           | None => []
           end
  | ReplyRaise _ => []
  end.

Definition served_records (t : list event) : list (list (string * json)) :=
  t ≫= (fun e =>
          match e with
          | EvHttp req rep => if is_login req then [] else reply_records rep
          | _ => []
          end).

(** The 24 combinations of the POST fetcher, in the order of the loops. *)
Definition catalog : list tags :=
  [mkTags "PercOIGainers" "NEAR" "gainersLosers";
   mkTags "PercOILosers" "NEAR" "gainersLosers";
   mkTags "PercPriceGainers" "NEAR" "gainersLosers";
   mkTags "PercPriceLosers" "NEAR" "gainersLosers";
   mkTags "PercOIGainers" "NEXT" "gainersLosers";
   mkTags "PercOILosers" "NEXT" "gainersLosers";
   mkTags "PercPriceGainers" "NEXT" "gainersLosers";
   mkTags "PercPriceLosers" "NEXT" "gainersLosers";
   mkTags "PercOIGainers" "FAR" "gainersLosers";
   mkTags "PercOILosers" "FAR" "gainersLosers";
   mkTags "PercPriceGainers" "FAR" "gainersLosers";
   mkTags "PercPriceLosers" "FAR" "gainersLosers";
   mkTags "Long Built Up" "NEAR" "OIBuildup";
   mkTags "Short Built Up" "NEAR" "OIBuildup";
   mkTags "Short Covering" "NEAR" "OIBuildup";
   mkTags "Long Unwinding" "NEAR" "OIBuildup";
   mkTags "Long Built Up" "NEXT" "OIBuildup";
   mkTags "Short Built Up" "NEXT" "OIBuildup";
   mkTags "Short Covering" "NEXT" "OIBuildup";
   mkTags "Long Unwinding" "NEXT" "OIBuildup";
   mkTags "Long Built Up" "FAR" "OIBuildup";
   mkTags "Short Built Up" "FAR" "OIBuildup";
   mkTags "Short Covering" "FAR" "OIBuildup";
   mkTags "Long Unwinding" "FAR" "OIBuildup"].

Definition the_tag_columns : list string :=
  ["DataType"; "ExpiryType"; "Endpoint"].

(** The frames the 25 calls return, empty ones included.  This is the run
    of [fetch_gainers_oi] and [pcr_call] with one difference: every frame
    is kept, so that statements can speak about what each call returned. *)
Definition post_call_kept (w : World) (api_obj : Session)
    (endpoint expiry datatype : string) (returned : list DataFrame)
    : M (list DataFrame) :=
  print (Fetching (mkTags datatype expiry endpoint));;
  do df <- fetch_post_data w api_obj endpoint datatype expiry 2 2;
  collect (mkTags datatype expiry endpoint) df [];;
  ret (returned ++ [df]).

Definition pcr_call_kept (w : World) (api_obj : Session)
    (returned : list DataFrame) : M (list DataFrame) :=
  print (Fetching pcr_tags);;
  do df <- fetch_pcr_volume w api_obj 2 2;
  collect pcr_tags df [];;
  ret (returned ++ [df]).

Definition returned_frames (w : World) (api_obj : Session)
    : M (list DataFrame) :=
  do returned <-
    for_each endpoints (fun ep =>
      for_each expiry_types (fun expiry =>
        for_each ep.2 (fun datatype =>
          post_call_kept w api_obj ep.1 expiry datatype))) [];
  pcr_call_kept w api_obj returned.

(** A program only appends events, all of which satisfy [P], and leaves
    the files alone. *)
Definition adds (P : event -> Prop) {A} (c : M A) : Prop :=
  forall m, exists l, (c m).2 = logged m l /\ Forall P l.

(** The frame a call makes of the one record it was served. *)
Definition one_row_frame (t : tags) (rec : list (string * json)) : DataFrame :=
  tag t (from_records [rec]).

(** Two runs end the same way, in the same state, and with results
    related by [R] when they return. *)
Definition agree {S T} (R : S -> T -> Prop)
    (p : result S * Machine) (q : result T * Machine) : Prop :=
  p.2 = q.2 /\
  match p.1, q.1 with
  | Ret s, Ret t => R s t
  | Exit, Exit => True
  | Raise e, Raise e' => e = e'
  | _, _ => False
  end.

(** The frames the orchestrator keeps, among the returned ones. *)
Definition non_empty (returned : list DataFrame) : list DataFrame :=
  filter (fun df => df_empty df = false) returned.

(** A program sends at most [n] market-data requests and [k] login
    requests, and does nothing else than append events. *)
Definition spends (n k : nat) {A} (c : M A) : Prop :=
  forall m, exists l,
    (c m).2 = logged m l /\
    (length (data_calls l) <= n)%nat /\
    (length (login_calls l) <= k)%nat.

(** The calls the orchestrator announced, in order. *)
Definition announced (t : list event) : list tags :=
  omap (fun e =>
          match e with
          | EvPrint (Fetching t) => Some t
          | _ => None
          end) t.

(** Events that are not an announcement of the orchestrator. *)
Definition quiet (e : event) : Prop :=
  match e with
  | EvPrint (Fetching _) => False
  | _ => True
  end.

(** Events a call for [mth], [url] and [payload] may produce: any line or
    sleep, a login, or a request of exactly that method, URL and body. *)
Definition of_call (mth : method) (url : string)
    (payload : option (list (string * string))) (e : event) : Prop :=
  match e with
  | EvHttp req _ =>
      is_login req = true \/
      (req_method req = mth /\ req_url req = url /\ req_json req = payload)
  | _ => True
  end.

(** The first part of the program: the start-up login and the 25 calls;
    its result is the list [all_data] the saving step receives. *)
Definition collected (w : World) : M (list DataFrame) :=
  do api_obj <- initialize_api w;
  do all_data <- fetch_gainers_oi w api_obj [];
  pcr_call w api_obj all_data.

(** Whatever a program returns, when it returns, satisfies [P]. *)
Definition returns {A} (P : A -> Prop) (c : M A) : Prop :=
  forall m, match (c m).1 with Ret a => P a | _ => True end.

(** A frame that carries the labels of one of the calls in [ts]. *)
Definition labelled_by (ts : list tags) (df : DataFrame) : Prop :=
  exists t df0, t ∈ ts /\ df = tag t df0.

(** ** Mock worlds, for examples *)

Definition env_of (vars : list (string * string)) : string -> option string :=
  fun k => (list_to_map vars : gmap string string) !! k.

Definition full_env : string -> option string :=
  env_of [("API_KEY", "key"); ("USER_NAME", "A123"); ("MPIN", "1234");
          ("TOTP_SECRET", "JBSWY3DPEHPK3PXP")].

(** A world whose login endpoint answers its [n]-th call with [logins n]
    and whose market-data endpoints answer their [n]-th call (all of them
    counted together) with [datas n]. *)
Definition mock (env : string -> option string) (logins : nat -> reply)
    (datas : nat -> request -> reply) : World :=
  mkWorld env (fun _ _ => Some "492039") (fun _ _ => None)
    (fun t req =>
       if is_login req then logins (length (login_calls t))
       else datas (length (data_calls t)) req)
    (fun _ => None).

Definition login_reply (status : Z) (token : string) : reply :=
  ReplyResponse
    (mkResponse status
       (Some (JObj [("status", JBool true); ("message", JStr "SUCCESS");
                    ("data", JObj [("jwtToken", JStr token)])]))).

Definition login_refusal : reply :=
  ReplyResponse
    (mkResponse 200
       (Some (JObj [("status", JBool false);
                    ("message", JStr "Invalid totp"); ("data", JNull)]))).

Definition data_reply (recs : list (list (string * json))) : reply :=
  ReplyResponse
    (mkResponse 200
       (Some (JObj [("status", JBool true); ("message", JStr "SUCCESS");
                    ("data", JArr (JObj <$> recs))]))).

Definition error_reply (status : Z) (details : option json) : reply :=
  ReplyResponse (mkResponse status details).

(** What importing the SmartAPI SDK does when its module is loaded: it asks
    api.ipify.org for the public IP address and goes on whatever comes
    back. *)
Definition public_ip_lookup (w : World) : M unit :=
  do _ <- send w (mkRequest GET "https://api.ipify.org" ∅ None);
  ret tt.

Definition start : Machine := mkMachine [] ∅.

Definition a_session (token : string) : Session :=
  mkSession "key" (JStr token) (fun _ => None).

Definition sample_row (symbol : string) (oi : Z) : list (string * json) :=
  [("tradingSymbol", JStr symbol); ("opnInterest", JNum oi)].

(** ** Running programs *)

Lemma bind_Ret {A B} (c : M A) (k : A -> M B) m a m' :
  c m = (Ret a, m') -> bind c k m = k a m'.
Proof. intros H. unfold bind. by rewrite H. Qed.

Lemma bind_Exit {A B} (c : M A) (k : A -> M B) m m' :
  c m = (Exit, m') -> bind c k m = (Exit, m').
Proof. intros H. unfold bind. by rewrite H. Qed.

Lemma bind_Raise {A B} (c : M A) (k : A -> M B) m e m' :
  c m = (Raise e, m') -> bind c k m = (Raise e, m').
Proof. intros H. unfold bind. by rewrite H. Qed.

Lemma logged_app m l1 l2 : logged (logged m l1) l2 = logged m (l1 ++ l2).
Proof. unfold logged. simpl. by rewrite <- app_assoc. Qed.

Lemma logged_nil m : logged m [] = m.
Proof. destruct m. unfold logged. simpl. by rewrite app_nil_r. Qed.

Lemma print_run {B} msg (k : unit -> M B) m :
  bind (print msg) k m = k tt (logged m [EvPrint msg]).
Proof. reflexivity. Qed.

Lemma sleep_run {B} n (k : unit -> M B) m :
  bind (sleep n) k m = k tt (logged m [EvSleep n]).
Proof. reflexivity. Qed.

Lemma send_run {B} w req (k : reply -> M B) m :
  bind (send w req) k m =
  k (http w (trace m) req) (logged m [EvHttp req (http w (trace m) req)]).
Proof. reflexivity. Qed.

Lemma ret_run {A B} (a : A) (k : A -> M B) m : bind (ret a) k m = k a m.
Proof. reflexivity. Qed.

Lemma bind_assoc {A B C} (c : M A) (k : A -> M B) (k' : B -> M C) m :
  bind (bind c k) k' m = bind c (fun a => bind (k a) k') m.
Proof. unfold bind. by destruct (c m) as [[a | | e] m']. Qed.

Lemma ret_end {A} (a : A) m : ret a m = (Ret a, m).
Proof. reflexivity. Qed.

Lemma print_end msg m : print msg m = (Ret tt, logged m [EvPrint msg]).
Proof. reflexivity. Qed.

(** Push a program one step: reassociate, then run the leading primitive. *)
Ltac step :=
  repeat first
    [ rewrite bind_assoc | rewrite print_run | rewrite sleep_run
    | rewrite ret_run | rewrite send_run | rewrite logged_app ].

(** ** Missing configuration *)

Lemma missing_fails_check w k :
  k ∈ required -> getenv w k = None ->
  forallb env_truthy
    [getenv w "API_KEY"; getenv w "USER_NAME"; getenv w "MPIN";
     getenv w "TOTP_SECRET"] = false.
Proof.
  unfold required. intros Hk Hnone.
  repeat (apply elem_of_cons in Hk as [-> | Hk];
          [rewrite Hnone; simpl; by rewrite ?andb_false_r |]).
  by apply elem_of_nil in Hk.
Qed.

Lemma initialize_api_unchecked w m :
  forallb env_truthy
    [getenv w "API_KEY"; getenv w "USER_NAME"; getenv w "MPIN";
     getenv w "TOTP_SECRET"] = false ->
  initialize_api w m = (Exit, logged m [EvPrint MissingCredentials]).
Proof. intros H. unfold initialize_api. by rewrite H. Qed.

(** When one of the four required configuration values is missing, the
    authenticator, and with it the main execution, stops at once: all it
    adds is the console line, and no request. *)
Theorem missing_config_no_network (w : World) (m : Machine) (k : string) :
  k ∈ required -> getenv w k = None ->
  initialize_api w m = (Exit, logged m [EvPrint MissingCredentials]) /\
  main w m = (Exit, logged m [EvPrint MissingCredentials]) /\
  network_calls (trace (main w m).2) = network_calls (trace m).
Proof.
  intros Hk Hnone.
  pose proof (initialize_api_unchecked w m (missing_fails_check w k Hk Hnone))
    as Hinit.
  assert (main w m = (Exit, logged m [EvPrint MissingCredentials])) as Hmain.
  { unfold main. by apply bind_Exit. }
  split; [done | split; [done |]].
  rewrite Hmain. unfold network_calls, logged. simpl.
  rewrite omap_app. simpl. by rewrite app_nil_r.
Qed.

(** ** Frames *)

Lemma records_of_objects recs : records_of (JArr (JObj <$> recs)) = Some recs.
Proof.
  unfold records_of. apply mapM_Some. induction recs as [| r recs IH].
  - constructor.
  - rewrite fmap_cons. by constructor.
Qed.

Lemma add_column_nonempty c cols : add_column c cols <> [].
Proof.
  unfold add_column. destruct (decide (c ∈ cols)) as [Hin | _].
  - intros ->. by apply elem_of_nil in Hin.
  - by destruct cols.
Qed.

Lemma rows_tag t df :
  rows (tag t df) =
  (fun r => <["Endpoint" := JStr (tg_endpoint t)]>
              (<["ExpiryType" := JStr (tg_expirytype t)]>
                 (<["DataType" := JStr (tg_datatype t)]> r))) <$> rows df.
Proof. unfold tag, set_col. simpl. by rewrite <- !list_fmap_compose. Qed.

Lemma tag_not_empty t df : rows df <> [] -> df_empty (tag t df) = false.
Proof.
  intros Hrows. unfold df_empty. rewrite rows_tag.
  destruct (rows df) as [| r rs]; [done |].
  simpl. pose proof (add_column_nonempty "Endpoint"
    (add_column "ExpiryType" (add_column "DataType" (columns df)))) as Hne.
  by destruct (add_column _ _).
Qed.

Lemma tag_rows_labelled t df :
  Forall (fun row =>
            row !! "DataType" = Some (JStr (tg_datatype t)) /\
            row !! "ExpiryType" = Some (JStr (tg_expirytype t)) /\
            row !! "Endpoint" = Some (JStr (tg_endpoint t)))
         (rows (tag t df)).
Proof.
  rewrite rows_tag. apply Forall_fmap, Forall_true. intros r. simpl.
  repeat split.
  - rewrite !lookup_insert_ne by done. by rewrite lookup_insert_eq.
  - rewrite lookup_insert_ne by done. by rewrite lookup_insert_eq.
  - by rewrite lookup_insert_eq.
Qed.

(** ** One iteration of a fetcher *)

Section Iteration.

Context (w : World) (mth : method) (url : string)
        (payload : option (list (string * string))) (t : tags)
        (retries delay : nat).

Let loop := attempts w mth url payload t retries delay.
Let req headers := mkRequest mth url headers payload.

Lemma attempts_response todo attempt api_obj headers response m r :
  http w (trace m) (req headers) = ReplyResponse r ->
  is_http_error r = false ->
  loop (S todo) attempt api_obj headers response m =
  on_response w t retries attempt r
    (logged m [EvHttp (req headers) (ReplyResponse r)]).
Proof.
  intros Hrep Hok. unfold loop. cbn [attempts].
  rewrite send_run. fold (req headers). rewrite Hrep, Hok. done.
Qed.

Lemma attempts_http_error_response todo attempt api_obj headers response m r :
  http w (trace m) (req headers) = ReplyResponse r ->
  is_http_error r = true ->
  loop (S todo) attempt api_obj headers response m =
  bind (on_http_error w t retries delay attempt api_obj headers (Some r))
       (fun sh => loop todo (S attempt) sh.1 sh.2 (Some r))
       (logged m [EvHttp (req headers) (ReplyResponse r)]).
Proof.
  intros Hrep Herr. unfold loop. cbn [attempts].
  rewrite send_run. fold (req headers). rewrite Hrep, Herr. done.
Qed.


Lemma attempts_other_exception todo attempt api_obj headers response m e :
  http w (trace m) (req headers) = ReplyRaise e ->
  e <> HTTPError ->
  loop (S todo) attempt api_obj headers response m =
  (Ret empty_frame,
   logged m [EvHttp (req headers) (ReplyRaise e);
             EvPrint (FetchError t (S attempt) (S retries) e)]).
Proof.
  intros Hrep Hne. unfold loop. cbn [attempts].
  rewrite send_run. fold (req headers). rewrite Hrep.
  destruct e; try done; rewrite print_run; unfold ret;
    by rewrite logged_app.
Qed.

End Iteration.

(** ** What a parsed response leads to *)

Lemma fetch_check_data members d :
  truthy_opt (dict_of members !! "status") = true ->
  dict_of members !! "data" = Some d ->
  truthy d = true ->
  fetch_check (JObj members) = inr (Some d).
Proof.
  intros Hst Hd Ht. unfold fetch_check. simpl. by rewrite Hst, Hd, Ht.
Qed.

Lemma fetch_check_nothing members :
  truthy_opt (dict_of members !! "status") = false \/
  dict_of members !! "data" = None \/
  dict_of members !! "data" = Some (JArr []) ->
  fetch_check (JObj members) = inr None.
Proof.
  unfold fetch_check. simpl.
  intros [Hst | [Hd | Hd]].
  - by rewrite Hst.
  - rewrite Hd. by destruct (truthy_opt _).
  - rewrite Hd. by destruct (truthy_opt _).
Qed.

Lemma on_response_frame w t retries attempt r data d df m :
  body r = Some data ->
  fetch_check data = inr (Some d) ->
  pd_DataFrame w d = Some df ->
  on_response w t retries attempt r m =
  (Ret (tag t df),
   logged m [EvPrint (ResponseDump t data); EvPrint (Fetched t)]).
Proof.
  intros Hb Hc Hdf. unfold on_response. rewrite Hb, print_run, Hc, print_run.
  rewrite Hdf. unfold ret. by rewrite logged_app.
Qed.

Lemma on_response_nothing w t retries attempt r data m :
  body r = Some data ->
  fetch_check data = inr None ->
  on_response w t retries attempt r m =
  (Ret empty_frame,
   logged m [EvPrint (ResponseDump t data); EvPrint (NoDataReturned t data)]).
Proof.
  intros Hb Hc. unfold on_response. rewrite Hb, print_run, Hc, print_run.
  unfold ret. by rewrite logged_app.
Qed.

Lemma success_is_no_http_error r :
  (200 <= status_code r < 300)%Z -> is_http_error r = false.
Proof. intros H. unfold is_http_error. lia. Qed.

(** An iteration whose response carries records ends the call with the
    tagged frame of these records. *)
Lemma attempts_records w mth url payload t retries delay todo attempt api_obj
    headers response m r members recs :
  http w (trace m) (mkRequest mth url headers payload) = ReplyResponse r ->
  is_http_error r = false ->
  body r = Some (JObj members) ->
  truthy_opt (dict_of members !! "status") = true ->
  dict_of members !! "data" = Some (JArr (JObj <$> recs)) ->
  recs <> [] ->
  attempts w mth url payload t retries delay (S todo) attempt api_obj headers
    response m =
  (Ret (tag t (from_records recs)),
   logged m [EvHttp (mkRequest mth url headers payload) (ReplyResponse r);
             EvPrint (ResponseDump t (JObj members)); EvPrint (Fetched t)]).
Proof.
  intros Hrep Hok Hbody Hst Hdata Hne.
  assert (truthy (JArr (JObj <$> recs)) = true) as Htruthy.
  { destruct recs; [done | reflexivity]. }
  assert (pd_DataFrame w (JArr (JObj <$> recs)) = Some (from_records recs))
    as Hdf.
  { unfold pd_DataFrame. by rewrite records_of_objects. }
  erewrite attempts_response by (exact Hrep || exact Hok).
  erewrite on_response_frame; [| exact Hbody | | exact Hdf].
  - by rewrite logged_app.
  - by apply fetch_check_data.
Qed.

Lemma tagged_records_shape t recs :
  recs <> [] ->
  let df := tag t (from_records recs) in
  length (rows df) = length recs /\
  df_empty df = false /\
  Forall (fun row =>
            row !! "DataType" = Some (JStr (tg_datatype t)) /\
            row !! "ExpiryType" = Some (JStr (tg_expirytype t)) /\
            row !! "Endpoint" = Some (JStr (tg_endpoint t)))
         (rows df).
Proof.
  intros Hne df. split; [| split].
  - unfold df. rewrite rows_tag. simpl. by rewrite !length_fmap.
  - apply tag_not_empty. simpl. by destruct recs.
  - apply tag_rows_labelled.
Qed.

(** C6: at any iteration of the POST fetcher's loop (the first one is the
    call [fetch_post_data] itself), a response that passes the status check
    and whose body has a true [status] and a non-empty [data] array of [N]
    records ends the call with a frame of [N] rows, each of which carries
    the call's datatype, expirytype and endpoint in the columns DataType,
    ExpiryType and Endpoint. *)
Theorem post_fetch_rows_tagged (w : World) (api_obj : Session)
    (endpoint datatype expirytype : string) (retries delay todo attempt : nat)
    (headers : gmap string hval) (response : option Response) (m : Machine)
    (r : Response) (members : list (string * json))
    (recs : list (list (string * json))) :
  http w (trace m) (post_request headers endpoint datatype expirytype)
    = ReplyResponse r ->
  is_http_error r = false ->
  body r = Some (JObj members) ->
  truthy_opt (dict_of members !! "status") = true ->
  dict_of members !! "data" = Some (JArr (JObj <$> recs)) ->
  recs <> [] ->
  exists df m',
    attempts w POST (market_url endpoint)
      (Some [("datatype", datatype); ("expirytype", expirytype)])
      (mkTags datatype expirytype endpoint) retries delay
      (S todo) attempt api_obj headers response m = (Ret df, m') /\
    length (rows df) = length recs /\
    df_empty df = false /\
    Forall (fun row =>
              row !! "DataType" = Some (JStr datatype) /\
              row !! "ExpiryType" = Some (JStr expirytype) /\
              row !! "Endpoint" = Some (JStr endpoint))
           (rows df).
Proof.
  intros Hrep Hok Hbody Hst Hdata Hne.
  eexists _, _. split.
  - by eapply attempts_records.
  - by apply (tagged_records_shape (mkTags datatype expirytype endpoint)).
Qed.

(** C7: when the first response of a POST fetch is a 2xx one whose body has
    a false [status], no [data] member or an empty [data] array, the call
    returns the empty frame (0 rows) after that single request: nothing
    else was sent. *)
Theorem post_fetch_no_data_no_retry (w : World) (api_obj : Session)
    (endpoint datatype expirytype : string) (retries delay : nat)
    (m : Machine) (r : Response) (members : list (string * json)) :
  let req :=
    post_request (fetch_headers w api_obj) endpoint datatype expirytype in
  http w (trace m) req = ReplyResponse r ->
  (200 <= status_code r < 300)%Z ->
  body r = Some (JObj members) ->
  truthy_opt (dict_of members !! "status") = false \/
  dict_of members !! "data" = None \/
  dict_of members !! "data" = Some (JArr []) ->
  exists df m',
    fetch_post_data w api_obj endpoint datatype expirytype retries delay m
      = (Ret df, m') /\
    length (rows df) = 0 /\
    network_calls (trace m') = network_calls (trace m) ++ [req].
Proof.
  intros req Hrep H2xx Hbody Hcase.
  exists empty_frame. eexists. split; [| split].
  - unfold fetch_post_data.
    erewrite attempts_response;
      [| exact Hrep | by apply success_is_no_http_error].
    eapply on_response_nothing; [exact Hbody |].
    by apply fetch_check_nothing.
  - done.
  - unfold network_calls, logged. simpl.
    rewrite <- app_assoc, omap_app. done.
Qed.

(** C8: when the request of an iteration of the POST fetcher raises an
    exception other than [HTTPError], the call ends there with the empty
    frame: the request and the error line are all that happened.  In the
    orchestrator the call is then like any other that brought nothing:
    the inner loop goes on with the remaining datatypes. *)
Theorem non_http_exception_abandons (w : World) (e : exn) :
  e <> HTTPError ->
  (forall api_obj endpoint datatype expirytype retries delay todo attempt
          headers response m,
     let req := post_request headers endpoint datatype expirytype in
     http w (trace m) req = ReplyRaise e ->
     attempts w POST (market_url endpoint)
       (Some [("datatype", datatype); ("expirytype", expirytype)])
       (mkTags datatype expirytype endpoint) retries delay
       (S todo) attempt api_obj headers response m =
     (Ret empty_frame,
      logged m [EvHttp req (ReplyRaise e);
                EvPrint (FetchError (mkTags datatype expirytype endpoint)
                           (S attempt) (S retries) e)])) /\
  (forall api_obj endpoint expiry datatype rest all_data m,
     let t := mkTags datatype expiry endpoint in
     let req :=
       post_request (fetch_headers w api_obj) endpoint datatype expiry in
     http w (trace m ++ [EvPrint (Fetching t)]) req = ReplyRaise e ->
     for_each (datatype :: rest) (post_call w api_obj endpoint expiry)
       all_data m =
     for_each rest (post_call w api_obj endpoint expiry) all_data
       (logged m [EvPrint (Fetching t); EvHttp req (ReplyRaise e);
                  EvPrint (FetchError t 1 3 e); EvPrint (NoDataFetched t);
                  EvSleep 1])).
Proof.
  intros He. split.
  - intros. by apply attempts_other_exception.
  - intros api_obj endpoint expiry datatype rest all_data m t req Hrep.
    cbn [for_each]. unfold post_call at 1. fold t. step.
    unfold fetch_post_data.
    erewrite bind_Ret;
      [| apply attempts_other_exception; [exact Hrep | exact He]].
    unfold collect. simpl negb. cbn iota. step. done.
Qed.


(** ** Examples on mock worlds *)

Lemma missing_config_no_network_witness :
  let w := mock (env_of [("API_KEY", "key"); ("USER_NAME", "A123");
                         ("TOTP_SECRET", "JBSWY3DPEHPK3PXP")])
             (fun _ => login_reply 200 "T1") (fun _ _ => data_reply []) in
  "MPIN" ∈ required /\ getenv w "MPIN" = None /\
  main w start = (Exit, logged start [EvPrint MissingCredentials]).
Proof.
  intros w.
  assert ("MPIN" ∈ required) as Hin by (unfold required; set_solver).
  assert (getenv w "MPIN" = None) as Hnone by reflexivity.
  split; [exact Hin | split; [exact Hnone |]].
  exact (proj1 (proj2 (missing_config_no_network w start "MPIN" Hin Hnone))).
Defined.

Lemma post_fetch_rows_tagged_witness :
  let w := mock full_env (fun _ => login_reply 200 "T1")
             (fun _ _ => data_reply [sample_row "NIFTY" 5; sample_row "TCS" 7]) in
  exists df m',
    fetch_post_data w (a_session "T1") "OIBuildup" "Long Built Up" "NEAR" 2 2
      start = (Ret df, m') /\
    length (rows df) = 2 /\
    df_empty df = false /\
    Forall (fun row =>
              row !! "DataType" = Some (JStr "Long Built Up") /\
              row !! "ExpiryType" = Some (JStr "NEAR") /\
              row !! "Endpoint" = Some (JStr "OIBuildup"))
           (rows df).
Proof.
  intros w.
  eapply (post_fetch_rows_tagged w (a_session "T1") "OIBuildup"
            "Long Built Up" "NEAR" 2 2 2 0 (fetch_headers w (a_session "T1"))
            None start _ _ [sample_row "NIFTY" 5; sample_row "TCS" 7]).
  - reflexivity.
  - reflexivity.
  - reflexivity.
  - vm_compute. reflexivity.
  - vm_compute. reflexivity.
  - discriminate.
Defined.

Lemma post_fetch_no_data_no_retry_witness :
  let w := mock full_env (fun _ => login_reply 200 "T1")
             (fun _ _ => data_reply []) in
  exists df m',
    fetch_post_data w (a_session "T1") "gainersLosers" "PercOILosers" "FAR"
      2 2 start = (Ret df, m') /\
    length (rows df) = 0 /\
    network_calls (trace m') =
      [post_request (fetch_headers w (a_session "T1")) "gainersLosers"
         "PercOILosers" "FAR"].
Proof.
  intros w.
  eapply (post_fetch_no_data_no_retry w (a_session "T1") "gainersLosers"
            "PercOILosers" "FAR" 2 2 start).
  - reflexivity.
  - simpl. lia.
  - reflexivity.
  - right. right. vm_compute. reflexivity.
Defined.

Lemma non_http_exception_abandons_witness :
  let w := mock full_env (fun _ => login_reply 200 "T1")
             (fun _ _ => ReplyRaise (RequestException "ConnectionError")) in
  fetch_post_data w (a_session "T1") "gainersLosers" "PercOIGainers" "NEAR"
    2 2 start =
  (Ret empty_frame,
   logged start
     [EvHttp (post_request (fetch_headers w (a_session "T1")) "gainersLosers"
                "PercOIGainers" "NEAR")
        (ReplyRaise (RequestException "ConnectionError"));
      EvPrint (FetchError (mkTags "PercOIGainers" "NEAR" "gainersLosers") 1 3
                 (RequestException "ConnectionError"))]).
Proof.
  intros w.
  assert (RequestException "ConnectionError" <> HTTPError) as Hne
    by discriminate.
  apply (proj1 (non_http_exception_abandons w _ Hne)).
  reflexivity.
Defined.


(** A whole call in which the stale response is used: the first request
    is answered with a 403, the two retries raise at once, and each of the
    three handler runs prints the body of that first response. *)
Example stale_details_run :
  let forbidden := JObj [("message", JStr "Forbidden")] in
  let w := mock full_env (fun _ => login_reply 200 "T2")
             (fun n _ => match n with
                         | O => error_reply 403 (Some forbidden)
                         | S _ => ReplyRaise HTTPError
                         end) in
  let run :=
    fetch_post_data w (a_session "T1") "gainersLosers" "PercOIGainers" "NEAR"
      2 2 start in
  run.1 = Ret empty_frame /\
  length (data_calls (trace run.2)) = 3%nat /\
  details_printed (trace run.2) = [forbidden; forbidden; forbidden].
Proof. vm_compute. done. Qed.

(** ** The authenticator *)

Lemma bind_history {B} (k : list event -> M B) m :
  bind history k m = k (trace m) m.
Proof. reflexivity. Qed.

Lemma exit_end {A} m : @exit A m = (Exit, m).
Proof. reflexivity. Qed.

(** A successful run of the authenticator is one login request answered
    with a token, and two console lines. *)
Lemma initialize_api_Ret w m s m' :
  initialize_api w m = (Ret s, m') ->
  exists totp r data,
    totp_now w (trace m) (default "" (getenv w "TOTP_SECRET")) = Some totp /\
    http w (trace m) (login_request w (trace m) totp) = ReplyResponse r /\
    is_http_error r = false /\
    body r = Some data /\
    login_check data = inr (Some (access_token s)) /\
    m' = logged m [EvHttp (login_request w (trace m) totp) (ReplyResponse r);
                   EvPrint SessionInitialized;
                   EvPrint (SessionResponse data)].
Proof.
  unfold initialize_api.
  destruct (forallb _ _); cbn [negb]; [| step; discriminate].
  rewrite bind_history.
  destruct (totp_now _ _ _) as [totp |] eqn:Htotp; [| step; discriminate].
  rewrite send_run.
  destruct (http _ _ _) as [e | r] eqn:Hrep; [step; discriminate |].
  destruct (is_http_error r) eqn:Herr; [step; discriminate |].
  destruct (body r) as [data |] eqn:Hbody; [| step; discriminate].
  destruct (login_check data) as [e | [token |]] eqn:Hcheck;
    [step; discriminate | | step; discriminate].
  step. rewrite ret_end. intros [= <- <-].
  exists totp, r, data. done.
Qed.

Lemma authenticator_fails w m :
  auth_failure w (trace m) ->
  exists l msg,
    failure_line msg = true /\ data_calls l = [] /\
    initialize_api w m = (Exit, logged m (l ++ [EvPrint msg])).
Proof.
  intros Hfail. unfold initialize_api.
  destruct (forallb _ _) eqn:Hcheck; cbn [negb]; cycle 1.
  { exists [], MissingCredentials. by step. }
  rewrite bind_history.
  destruct (totp_now _ _ _) as [totp |] eqn:Htotp; cycle 1.
  { exists [], TotpError. by step. }
  rewrite send_run.
  set (req := login_request w (trace m) totp) in *.
  destruct (http _ _ _) as [e | r] eqn:Hrep.
  { exists [EvHttp req (ReplyRaise e)], (LoginFailedExc e). by step. }
  destruct (is_http_error r) eqn:Herr.
  { exists [EvHttp req (ReplyResponse r)], (LoginFailedExc HTTPError).
    by step. }
  destruct (body r) as [data |] eqn:Hbody; cycle 1.
  { exists [EvHttp req (ReplyResponse r)], (LoginFailedExc JSONDecodeError).
    by step. }
  destruct (login_check data) as [e | [token |]] eqn:Hlogin.
  - exists [EvHttp req (ReplyResponse r)], (LoginFailedExc e). by step.
  - exfalso. subst req.
    destruct Hfail as [H | H | ? ? H H' | ? ? H H' H'' | ? ? H H' H''
                      | ? ? ? ? H H' H'' H''' | ? ? ? H H' H'' H'''];
      congruence.
  - exists [EvHttp req (ReplyResponse r);
            EvPrint (LoginFailed (login_message data))],
           (FullSessionResponse data).
    by step.
Qed.

(** The authenticator returns a session or fails in one of the listed
    ways; it never lets an exception out. *)
Lemma authenticator_returns_or_fails w m :
  (exists s m', initialize_api w m = (Ret s, m')) \/
  auth_failure w (trace m).
Proof.
  unfold initialize_api.
  destruct (forallb _ _) eqn:Hcheck; cbn [negb]; cycle 1.
  { right. by apply missing_config. }
  rewrite bind_history.
  destruct (totp_now _ _ _) as [totp |] eqn:Htotp; cycle 1.
  { right. by apply totp_error. }
  rewrite send_run.
  destruct (http _ _ _) as [e | r] eqn:Hrep.
  { right. by eapply request_raised. }
  destruct (is_http_error r) eqn:Herr.
  { right. by eapply error_status. }
  destruct (body r) as [data |] eqn:Hbody; cycle 1.
  { right. by eapply malformed_body. }
  destruct (login_check data) as [e | [token |]] eqn:Hlogin.
  - right. by eapply unexpected_body.
  - left. step. rewrite ret_end. eauto.
  - right. by eapply login_refused.
Qed.

(** C5 (as amended): whenever the authenticator fails (a configuration
    value missing or empty, no one-time code, the login request raising, a
    4xx or 5xx login response, a body that is not JSON or not of the
    expected shape, a false status flag or no token), it ends the process
    right after a console line: it returns no session and raises nothing,
    whatever its caller meant to do next is not run, no market-data request
    was sent meanwhile, and the program started in that state ends the
    same way. *)
Theorem auth_failure_terminates (w : World) (m : Machine) :
  auth_failure w (trace m) ->
  exists l msg,
    failure_line msg = true /\ data_calls l = [] /\
    initialize_api w m = (Exit, logged m (l ++ [EvPrint msg])) /\
    (forall B (k : Session -> M B),
       bind (initialize_api w) k m = (Exit, logged m (l ++ [EvPrint msg]))) /\
    main w m = (Exit, logged m (l ++ [EvPrint msg])).
Proof.
  intros Hfail.
  destruct (authenticator_fails w m Hfail) as (l & msg & Hline & Hdata & Hrun).
  exists l, msg. repeat split; try done.
  - intros B k. by apply bind_Exit.
  - unfold main. by apply bind_Exit.
Qed.

Lemma auth_failure_terminates_witness :
  let w := mock full_env (fun _ => login_refusal)
             (fun _ _ => data_reply [sample_row "NIFTY" 5]) in
  exists l msg,
    failure_line msg = true /\ data_calls l = [] /\
    initialize_api w start = (Exit, logged start (l ++ [EvPrint msg])) /\
    (forall B (k : Session -> M B),
       bind (initialize_api w) k start =
       (Exit, logged start (l ++ [EvPrint msg]))) /\
    main w start = (Exit, logged start (l ++ [EvPrint msg])).
Proof.
  intros w. apply (auth_failure_terminates w start).
  eapply (login_refused w [] "492039"); reflexivity.
Defined.

(** What that run looks like: the login request, two lines, the end. *)
Example refused_login_run :
  let w := mock full_env (fun _ => login_refusal)
             (fun _ _ => data_reply [sample_row "NIFTY" 5]) in
  main w start =
  (Exit,
   logged start
     [EvHttp (login_request w [] "492039") login_refusal;
      EvPrint (LoginFailed (JStr "Invalid totp"));
      EvPrint (FullSessionResponse
                 (JObj [("status", JBool false);
                        ("message", JStr "Invalid totp"); ("data", JNull)]))]).
Proof. vm_compute. reflexivity. Qed.

(** C5 as stated fails for a login response outside 2xx that
    [raise_for_status] lets through: a 300 response whose body is a
    well-formed success body yields a session, and the 25 fetches follow. *)
Lemma non_2xx_login_accepted :
  let w := mock full_env (fun _ => login_reply 300 "T1")
             (fun _ _ => data_reply []) in
  http w [] (login_request w [] "492039") = login_reply 300 "T1" /\
  ~ (200 <= 300 < 300)%Z /\
  (exists s m',
     initialize_api w start = (Ret s, m') /\ access_token s = JStr "T1") /\
  (main w start).1 = Ret tt /\
  length (data_calls (trace (main w start).2)) = 25.
Proof.
  intros w. split; [reflexivity |]. split; [lia |]. split.
  - eexists _, _. split; [vm_compute; reflexivity | reflexivity].
  - split; vm_compute; reflexivity.
Qed.

(** ** Traces only grow *)

Lemma adds_ret {A} P (a : A) : adds P (ret a).
Proof. intros m. exists []. by rewrite logged_nil. Qed.

Lemma adds_exit {A} P : adds P (@exit A).
Proof. intros m. exists []. by rewrite logged_nil. Qed.

Lemma adds_raise {A} P e : adds P (@raise A e).
Proof. intros m. exists []. by rewrite logged_nil. Qed.

Lemma adds_history P : adds P history.
Proof. intros m. exists []. by rewrite logged_nil. Qed.

Lemma adds_emit (P : event -> Prop) e : P e -> adds P (emit e).
Proof. intros He m. exists [e]. split; [done | by constructor]. Qed.

Lemma adds_send (P : event -> Prop) w req :
  (forall rep, P (EvHttp req rep)) -> adds P (send w req).
Proof. intros He m. eexists [_]. split; [done | by constructor]. Qed.

Lemma adds_bind {A B} P (c : M A) (k : A -> M B) :
  adds P c -> (forall a, adds P (k a)) -> adds P (bind c k).
Proof.
  intros Hc Hk m. destruct (Hc m) as (l & Hl & HP).
  unfold bind. destruct (c m) as [[a | | e] m1]; simpl in Hl.
  - destruct (Hk a m1) as (l' & Hl' & HP').
    exists (l ++ l'). rewrite Hl', Hl, logged_app. split; [done |].
    by apply Forall_app.
  - by exists l.
  - by exists l.
Qed.

Lemma adds_for_each {A S} P (xs : list A) (f : A -> S -> M S) s :
  (forall x s', adds P (f x s')) -> adds P (for_each xs f s).
Proof.
  intros Hf. revert s. induction xs as [| x xs IH]; intros s.
  - apply adds_ret.
  - simpl. apply adds_bind; [apply Hf | apply IH].
Qed.

(** Solve [adds (fun _ => True) c] for a program made of primitives and of
    programs already known to qualify. *)
Ltac grows :=
  repeat first
    [ apply adds_bind; [| intros ?]
    | apply adds_ret | apply adds_exit | apply adds_raise
    | apply adds_history
    | apply adds_emit; exact I
    | apply adds_send; intros ?; exact I
    | assumption
    | match goal with
      | |- adds _ (match ?x with _ => _ end) => destruct x
      | |- adds _ (if ?x then _ else _) => destruct x
      end ].

Lemma initialize_api_grows w : adds (fun _ => True) (initialize_api w).
Proof. unfold initialize_api, print, sleep. grows. Qed.

Lemma on_response_grows w t retries attempt r :
  adds (fun _ => True) (on_response w t retries attempt r).
Proof. unfold on_response, print. grows. Qed.

Lemma on_http_error_grows w t retries delay attempt api_obj headers response :
  adds (fun _ => True)
    (on_http_error w t retries delay attempt api_obj headers response).
Proof.
  pose proof (initialize_api_grows w).
  unfold on_http_error, forbidden_details, refresh_session, print, sleep.
  grows.
Qed.

Lemma attempts_grows w mth url payload t retries delay todo attempt api_obj
    headers response :
  adds (fun _ => True)
    (attempts w mth url payload t retries delay todo attempt api_obj headers
       response).
Proof.
  revert attempt api_obj headers response.
  induction todo as [| todo IH]; intros attempt api_obj headers response.
  - unfold attempts, print. grows.
  - cbn [attempts]. apply adds_bind; [grows |]. intros rep.
    unfold print.
    destruct rep as [e | r]; [destruct e | destruct (is_http_error r)];
      try (apply adds_bind;
           [apply on_http_error_grows | intros ?; apply IH]);
      try apply on_response_grows; grows.
Qed.

(** ** Counting requests *)

Lemma network_calls_app t1 t2 :
  network_calls (t1 ++ t2) = network_calls t1 ++ network_calls t2.
Proof. apply omap_app. Qed.

Lemma data_calls_app t1 t2 :
  data_calls (t1 ++ t2) = data_calls t1 ++ data_calls t2.
Proof. unfold data_calls. by rewrite network_calls_app, filter_app. Qed.

Lemma login_calls_app t1 t2 :
  login_calls (t1 ++ t2) = login_calls t1 ++ login_calls t2.
Proof. unfold login_calls. by rewrite network_calls_app, filter_app. Qed.

Lemma market_is_not_login mth endpoint headers payload :
  is_login (mkRequest mth (market_url endpoint) headers payload) = false.
Proof. reflexivity. Qed.

Lemma login_request_is_login w now totp :
  is_login (login_request w now totp) = true.
Proof. reflexivity. Qed.

Lemma forbidden_details_run {B} r (k : unit -> M B) m :
  details_loggable r = true ->
  bind (forbidden_details (Some r)) k m = k tt (logged m (details_lines r)).
Proof.
  unfold details_loggable, forbidden_details, details_lines.
  destruct (status_code r =? 403)%Z; simpl.
  - destruct (body r); [| discriminate]. intros _. by step.
  - intros _. step. by rewrite logged_nil.
Qed.

(** The handler of an error response with retries left: lines, the sleep,
    then the authenticator, whose session and token replace the local
    ones. *)
Lemma on_http_error_retry {B} w t retries delay attempt api_obj headers r
    (k : Session * gmap string hval -> M B) m :
  (attempt < retries)%nat ->
  details_loggable r = true ->
  bind (on_http_error w t retries delay attempt api_obj headers (Some r)) k m =
  bind (initialize_api w)
    (fun api_obj' =>
       k (api_obj',
          <["Authorization" := HBearer (access_token api_obj')]> headers))
    (logged m ([EvPrint (HttpErrorLine t (S attempt) (S retries))] ++
               details_lines r ++
               [EvPrint (Retrying delay); EvSleep delay])).
Proof.
  intros Hlt Hlog. unfold on_http_error, refresh_session.
  apply Nat.ltb_lt in Hlt. rewrite Hlt. step.
  rewrite forbidden_details_run by done. step.
  reflexivity.
Qed.

(** The handler of an error response at the last attempt: lines only. *)
Lemma on_http_error_last {B} w t retries delay attempt api_obj headers r
    (k : Session * gmap string hval -> M B) m :
  (retries <= attempt)%nat ->
  details_loggable r = true ->
  bind (on_http_error w t retries delay attempt api_obj headers (Some r)) k m =
  k (api_obj, headers)
    (logged m ([EvPrint (HttpErrorLine t (S attempt) (S retries))] ++
               details_lines r)).
Proof.
  intros Hge Hlog. unfold on_http_error, refresh_session.
  apply Nat.ltb_ge in Hge. rewrite Hge. step.
  rewrite forbidden_details_run by done. step. done.
Qed.

Lemma data_calls_nil : data_calls [] = [].
Proof. reflexivity. Qed.

Lemma login_calls_nil : login_calls [] = [].
Proof. reflexivity. Qed.

Lemma data_calls_print msg l : data_calls (EvPrint msg :: l) = data_calls l.
Proof. reflexivity. Qed.

Lemma data_calls_sleep n l : data_calls (EvSleep n :: l) = data_calls l.
Proof. reflexivity. Qed.

Lemma login_calls_print msg l : login_calls (EvPrint msg :: l) = login_calls l.
Proof. reflexivity. Qed.

Lemma login_calls_sleep n l : login_calls (EvSleep n :: l) = login_calls l.
Proof. reflexivity. Qed.

Lemma data_calls_http req rep l :
  data_calls (EvHttp req rep :: l) =
  if is_login req then data_calls l else req :: data_calls l.
Proof.
  unfold data_calls. simpl. rewrite filter_cons.
  destruct (is_login req); by case_decide.
Qed.

Lemma login_calls_http req rep l :
  login_calls (EvHttp req rep :: l) =
  if is_login req then req :: login_calls l else login_calls l.
Proof.
  unfold login_calls. simpl. rewrite filter_cons.
  destruct (is_login req); by case_decide.
Qed.

Lemma data_calls_details r : data_calls (details_lines r) = [].
Proof.
  unfold details_lines. destruct (status_code r =? 403)%Z; [| done].
  by destruct (body r).
Qed.

Lemma login_calls_details r : login_calls (details_lines r) = [].
Proof.
  unfold details_lines. destruct (status_code r =? 403)%Z; [| done].
  by destruct (body r).
Qed.

Lemma trace_logged m l : trace (logged m l) = trace m ++ l.
Proof. reflexivity. Qed.

Lemma files_logged m l : files (logged m l) = files m.
Proof. reflexivity. Qed.

(** Rewriting the request counts of a trace given piece by piece. *)
Ltac count_calls :=
  unfold logged; cbn [trace files];
  repeat first
    [ rewrite data_calls_app | rewrite login_calls_app
    | rewrite data_calls_print | rewrite data_calls_sleep
    | rewrite login_calls_print | rewrite login_calls_sleep
    | rewrite data_calls_details | rewrite login_calls_details
    | rewrite data_calls_http | rewrite login_calls_http
    | rewrite login_request_is_login | rewrite market_is_not_login
    | rewrite data_calls_nil | rewrite login_calls_nil
    | rewrite length_app | rewrite app_nil_r ];
  simpl length.

Lemma first_event_then_grows {A} (c : M A) m ev :
  adds (fun _ => True) c ->
  exists l, trace (c (logged m [ev])).2 = trace m ++ ev :: l.
Proof.
  intros Hc. destruct (Hc (logged m [ev])) as (l & Hl & _).
  exists l. rewrite Hl, logged_app, trace_logged. done.
Qed.

(** ** The retry loop *)

Section Retry.

Context (w : World) (mth : method) (url : string)
        (payload : option (list (string * string))) (t : tags)
        (retries delay : nat).

Let loop := attempts w mth url payload t retries delay.
Let req headers := mkRequest mth url headers payload.

(** Every iteration starts with its request. *)
Lemma attempts_first_event todo attempt api_obj headers response m :
  exists l,
    trace (loop (S todo) attempt api_obj headers response m).2 =
    trace m ++
    EvHttp (req headers) (http w (trace m) (req headers)) :: l.
Proof.
  unfold loop. cbn [attempts]. rewrite send_run. fold (req headers).
  apply first_event_then_grows.
  unfold print.
  destruct (http w (trace m) (req headers)) as [e | r];
    [destruct e | destruct (is_http_error r)];
    try (apply adds_bind;
         [apply on_http_error_grows | intros ?; apply attempts_grows]);
    try apply on_response_grows; grows.
Qed.

Lemma attempts_retry todo attempt api_obj headers response m r :
  (attempt < retries)%nat ->
  http w (trace m) (req headers) = ReplyResponse r ->
  is_http_error r = true ->
  details_loggable r = true ->
  loop (S todo) attempt api_obj headers response m =
  bind (initialize_api w)
    (fun api_obj' =>
       loop todo (S attempt) api_obj'
         (<["Authorization" := HBearer (access_token api_obj')]> headers)
         (Some r))
    (logged m ([EvHttp (req headers) (ReplyResponse r);
                EvPrint (HttpErrorLine t (S attempt) (S retries))] ++
               details_lines r ++
               [EvPrint (Retrying delay); EvSleep delay])).
Proof.
  intros Hlt Hrep Herr Hlog. unfold loop.
  erewrite attempts_http_error_response; [| exact Hrep | exact Herr].
  rewrite on_http_error_retry by done.
  rewrite logged_app. done.
Qed.

Lemma attempts_last todo attempt api_obj headers response m r :
  (retries <= attempt)%nat ->
  http w (trace m) (req headers) = ReplyResponse r ->
  is_http_error r = true ->
  details_loggable r = true ->
  loop (S todo) attempt api_obj headers response m =
  loop todo (S attempt) api_obj headers (Some r)
    (logged m ([EvHttp (req headers) (ReplyResponse r);
                EvPrint (HttpErrorLine t (S attempt) (S retries))] ++
               details_lines r)).
Proof.
  intros Hge Hrep Herr Hlog. unfold loop.
  erewrite attempts_http_error_response; [| exact Hrep | exact Herr].
  rewrite on_http_error_last by done.
  rewrite logged_app. done.
Qed.

Hypothesis always_http_error :
  forall now headers, exists r,
    http w now (req headers) = ReplyResponse r /\
    is_http_error r = true /\ details_loggable r = true.
Hypothesis login_always_succeeds :
  forall m, exists s m', initialize_api w m = (Ret s, m').
Hypothesis not_login_url : String.eqb url login_url = false.

Lemma attempts_exhausted todo attempt api_obj headers response m :
  (attempt + todo = S retries)%nat ->
  exists m',
    loop todo attempt api_obj headers response m = (Ret empty_frame, m') /\
    length (data_calls (trace m')) =
      (length (data_calls (trace m)) + todo)%nat /\
    length (login_calls (trace m')) =
      (length (login_calls (trace m)) + (todo - 1))%nat.
Proof.
  revert attempt api_obj headers response m.
  induction todo as [| todo IH];
    intros attempt api_obj headers response m Hsum.
  - eexists. split; [reflexivity |]. count_calls. lia.
  - destruct (always_http_error (trace m) headers) as (r & Hrep & Herr & Hlog).
    assert (is_login (req headers) = false) as Hreq by exact not_login_url.
    destruct (decide (attempt < retries)%nat) as [Hlt | Hge].
    + rewrite (attempts_retry todo attempt api_obj headers response m r)
        by done.
      match goal with |- context [bind _ _ ?m0] =>
        destruct (login_always_succeeds m0) as (s & m1 & Hinit) end.
      rewrite (bind_Ret _ _ _ _ _ Hinit).
      destruct (initialize_api_Ret _ _ _ _ Hinit)
        as (totp & r' & data & _ & _ & _ & _ & _ & ->).
      edestruct (IH (S attempt) s
                   (<["Authorization" := HBearer (access_token s)]> headers)
                   (Some r)) as (m' & Hrun & Hdata & Hlogin); [lia |].
      exists m'. split; [exact Hrun |].
      rewrite Hdata, Hlogin. count_calls. rewrite Hreq. simpl length. lia.
    + rewrite (attempts_last todo attempt api_obj headers response m r)
        by (done || lia).
      edestruct (IH (S attempt) api_obj headers (Some r))
        as (m' & Hrun & Hdata & Hlogin); [lia |].
      exists m'. split; [exact Hrun |].
      rewrite Hdata, Hlogin. count_calls. rewrite Hreq. simpl length. lia.
Qed.

End Retry.

(** C1 (as amended).  For the POST fetcher:
    - an iteration whose response is an HTTP error (4xx or 5xx) whose
      details can be logged, with retries left, prints its lines, sleeps
      for the delay and runs the authenticator once; if the authenticator
      ends the process, so does the call; if it returns a session, the
      loop goes on with that session and with its token in the
      Authorization header, and the next thing that happens is the request
      carrying that header;
    - when every response is such an HTTP error and every login succeeds,
      the call returns the empty frame after [retries + 1] requests and
      [retries] logins;
    - when the first response is such an HTTP error, the login that follows
      succeeds and the second response carries records, the call returns a
      non-empty frame, after exactly the two requests and the one login. *)
Theorem http_error_retry (w : World) (endpoint datatype expirytype : string)
    (retries delay : nat) :
  let t := mkTags datatype expirytype endpoint in
  let loop :=
    attempts w POST (market_url endpoint)
      (Some [("datatype", datatype); ("expirytype", expirytype)])
      t retries delay in
  let req headers := post_request headers endpoint datatype expirytype in
  let failed attempt headers r :=
    [EvHttp (req headers) (ReplyResponse r);
     EvPrint (HttpErrorLine t (S attempt) (S retries))] ++
    details_lines r ++ [EvPrint (Retrying delay); EvSleep delay] in
  (forall todo attempt api_obj headers response m r,
     (attempt < retries)%nat ->
     http w (trace m) (req headers) = ReplyResponse r ->
     is_http_error r = true ->
     details_loggable r = true ->
     (forall m1,
        initialize_api w (logged m (failed attempt headers r)) = (Exit, m1) ->
        loop (S todo) attempt api_obj headers response m = (Exit, m1)) /\
     (forall api_obj' m1,
        initialize_api w (logged m (failed attempt headers r))
          = (Ret api_obj', m1) ->
        let headers' :=
          <["Authorization" := HBearer (access_token api_obj')]> headers in
        loop (S todo) attempt api_obj headers response m =
          loop todo (S attempt) api_obj' headers' (Some r) m1 /\
        headers' !! "Authorization" = Some (HBearer (access_token api_obj')) /\
        (todo <> 0%nat ->
         exists l,
           trace (loop (S todo) attempt api_obj headers response m).2 =
           trace m1 ++
           EvHttp (req headers') (http w (trace m1) (req headers')) :: l))) /\
  ((forall now headers, exists r,
      http w now (req headers) = ReplyResponse r /\
      is_http_error r = true /\ details_loggable r = true) ->
   (forall m, exists s m', initialize_api w m = (Ret s, m')) ->
   forall api_obj m, exists m',
     fetch_post_data w api_obj endpoint datatype expirytype retries delay m
       = (Ret empty_frame, m') /\
     length (data_calls (trace m')) =
       (length (data_calls (trace m)) + S retries)%nat /\
     length (login_calls (trace m')) =
       (length (login_calls (trace m)) + retries)%nat) /\
  (forall api_obj m r1 api_obj' m1 r2 members recs,
     (0 < retries)%nat ->
     let headers := fetch_headers w api_obj in
     let headers' :=
       <["Authorization" := HBearer (access_token api_obj')]> headers in
     http w (trace m) (req headers) = ReplyResponse r1 ->
     is_http_error r1 = true ->
     details_loggable r1 = true ->
     initialize_api w (logged m (failed 0%nat headers r1))
       = (Ret api_obj', m1) ->
     http w (trace m1) (req headers') = ReplyResponse r2 ->
     is_http_error r2 = false ->
     body r2 = Some (JObj members) ->
     truthy_opt (dict_of members !! "status") = true ->
     dict_of members !! "data" = Some (JArr (JObj <$> recs)) ->
     recs <> [] ->
     exists df m' login,
       fetch_post_data w api_obj endpoint datatype expirytype retries delay m
         = (Ret df, m') /\
       df_empty df = false /\
       length (rows df) = length recs /\
       data_calls (trace m') =
         data_calls (trace m) ++ [req headers; req headers'] /\
       login_calls (trace m') = login_calls (trace m) ++ [login]).
Proof.
  intros t loop req failed. split; [| split].
  - intros todo attempt api_obj headers response m r Hlt Hrep Herr Hlog.
    pose proof (attempts_retry w POST (market_url endpoint) _ t retries delay
                  todo attempt api_obj headers response m r Hlt Hrep Herr Hlog)
      as Hstep.
    split.
    + intros m1 Hinit. unfold loop. rewrite Hstep. by apply bind_Exit.
    + intros api_obj' m1 Hinit headers'.
      assert (loop (S todo) attempt api_obj headers response m =
              loop todo (S attempt) api_obj' headers' (Some r) m1) as Heq.
      { unfold loop. rewrite Hstep. by erewrite bind_Ret. }
      split; [exact Heq | split].
      * unfold headers'. by rewrite lookup_insert_eq.
      * intros Hne. destruct todo as [| todo]; [done |].
        rewrite Heq. apply attempts_first_event.
  - intros Herrors Hlogins api_obj m.
    destruct (attempts_exhausted w POST (market_url endpoint) _ t retries delay
                Herrors Hlogins eq_refl (S retries) 0%nat api_obj
                (fetch_headers w api_obj) None m eq_refl)
      as (m' & Hrun & Hdata & Hlogin).
    exists m'. split; [exact Hrun |]. split; [exact Hdata |].
    rewrite Hlogin. lia.
  - intros api_obj m r1 api_obj' m1 r2 members recs Hpos headers headers'
      Hrep1 Herr1 Hlog1 Hinit Hrep2 Hok2 Hbody2 Hst Hdata Hne.
    destruct retries as [| todo]; [lia |].
    destruct (initialize_api_Ret _ _ _ _ Hinit)
      as (totp & r' & data & _ & _ & _ & _ & _ & Hm1).
    eexists _, _, _. split; [| split; [| split; [| split]]].
    + unfold fetch_post_data.
      rewrite (attempts_retry w POST (market_url endpoint) _ t (S todo) delay
                 (S todo) 0%nat api_obj headers None m r1) by (done || lia).
      erewrite bind_Ret by exact Hinit.
      by eapply attempts_records.
    + by apply (tagged_records_shape t).
    + by apply (tagged_records_shape t).
    + rewrite Hm1. unfold failed. count_calls. by rewrite <- app_assoc.
    + rewrite Hm1. unfold failed. count_calls. reflexivity.
Qed.

Lemma http_error_retry_witness :
  let w := mock full_env (fun _ => login_reply 200 "T2")
             (fun n _ =>
                match n with
                | O => error_reply 500 None
                | S _ => data_reply [sample_row "NIFTY" 5]
                end) in
  let headers := fetch_headers w (a_session "T1") in
  let req headers :=
    post_request headers "gainersLosers" "PercOIGainers" "NEAR" in
  exists df m' login,
    fetch_post_data w (a_session "T1") "gainersLosers" "PercOIGainers" "NEAR"
      2 2 start = (Ret df, m') /\
    df_empty df = false /\
    length (rows df) = 1%nat /\
    data_calls (trace m') =
      [req headers; req (<["Authorization" := HBearer (JStr "T2")]> headers)] /\
    login_calls (trace m') = [login].
Proof.
  intros w headers req.
  eapply (proj2 (proj2
            (http_error_retry w "gainersLosers" "PercOIGainers" "NEAR" 2 2))
          (a_session "T1") start (mkResponse 500 None)
          (mkSession "key" (JStr "T2") (fun _ => None)) _ _ _
          [sample_row "NIFTY" 5]).
  - lia.
  - reflexivity.
  - reflexivity.
  - reflexivity.
  - vm_compute. reflexivity.
  - vm_compute. reflexivity.
  - reflexivity.
  - reflexivity.
  - vm_compute. reflexivity.
  - vm_compute. reflexivity.
  - discriminate.
Defined.

(** C1 as stated fails when the login of the retry is refused: the data
    endpoint answers its first call with a 500 and would serve data from
    the second call on, but the authenticator ends the process, so there
    is neither a retry nor a result.  (It also fails when the error is a
    403 whose body does not parse: the handler raises before it sleeps.) *)
Lemma retry_cut_short :
  let datas n (_ : request) :=
    match n with
    | O => error_reply 500 None
    | S _ => data_reply [sample_row "NIFTY" 5]
    end in
  let w := mock full_env (fun _ => login_refusal) datas in
  let w403 := mock full_env (fun _ => login_reply 200 "T2")
                (fun _ _ => error_reply 403 None) in
  let req w :=
    post_request (fetch_headers w (a_session "T1")) "gainersLosers"
      "PercOIGainers" "NEAR" in
  let run w :=
    fetch_post_data w (a_session "T1") "gainersLosers" "PercOIGainers" "NEAR"
      2 2 start in
  (http w [] (req w) = error_reply 500 None /\
   (forall t, data_calls t <> [] ->
      http w t (req w) = data_reply [sample_row "NIFTY" 5]) /\
   (run w).1 = Exit /\
   data_calls (trace (run w).2) = [req w] /\
   ~ (exists df m', run w = (Ret df, m') /\ df_empty df = false)) /\
  (http w403 [] (req w403) = error_reply 403 None /\
   run w403 =
   (Raise JSONDecodeError,
    logged start
      [EvHttp (req w403) (error_reply 403 None);
       EvPrint (HttpErrorLine (mkTags "PercOIGainers" "NEAR" "gainersLosers")
                  1 3)])).
Proof.
  intros datas w w403 req run. split.
  - split; [reflexivity |]. split.
    { intros t Ht.
      change (http w t (req w)) with (datas (length (data_calls t)) (req w)).
      unfold datas. destruct (data_calls t); [done | reflexivity]. }
    split; [vm_compute; reflexivity |].
    split; [vm_compute; reflexivity |].
    intros (df & m' & Hrun & _).
    assert ((run w).1 = Exit) as Hexit by (vm_compute; reflexivity).
    rewrite Hrun in Hexit. discriminate.
  - split; [reflexivity | vm_compute; reflexivity].
Qed.

(** ** Loops *)

Lemma bind_ext {A B} (c : M A) (k k' : A -> M B) m :
  (forall a m', k a m' = k' a m') -> bind c k m = bind c k' m.
Proof. intros Hk. unfold bind. destruct (c m) as [[a | | e] m']; auto. Qed.

Lemma bind_ext_l {A B} (c c' : M A) (k : A -> M B) m :
  (forall m', c m' = c' m') -> bind c k m = bind c' k m.
Proof. intros Hc. unfold bind. by rewrite Hc. Qed.

Lemma bind_ret_r {A} (c : M A) m : bind c ret m = c m.
Proof. unfold bind. by destruct (c m) as [[a | | e] m']. Qed.

Lemma for_each_app {A S} (xs ys : list A) (f : A -> S -> M S) s m :
  for_each (xs ++ ys) f s m = bind (for_each xs f s) (for_each ys f) m.
Proof.
  revert s m. induction xs as [| x xs IH]; intros s m; [done |].
  simpl. rewrite bind_assoc. apply bind_ext. intros s' m'. apply IH.
Qed.

Lemma for_each_fmap {A B S} (h : A -> B) (xs : list A) (f : B -> S -> M S)
    s m :
  for_each (h <$> xs) f s m = for_each xs (fun x => f (h x)) s m.
Proof.
  revert s m. induction xs as [| x xs IH]; intros s m; [done |].
  simpl. apply bind_ext. intros s' m'. apply IH.
Qed.

Lemma for_each_ext {A S} (xs : list A) (f g : A -> S -> M S) s m :
  (forall x s' m', f x s' m' = g x s' m') ->
  for_each xs f s m = for_each xs g s m.
Proof.
  intros Hfg. revert s m. induction xs as [| x xs IH]; intros s m; [done |].
  simpl. unfold bind. rewrite Hfg.
  destruct (g x s m) as [[s' | | e] m']; auto.
Qed.

(** Two nested loops are one loop over the pairs. *)
Lemma for_each_nested {A B S} (xs : list A) (g : A -> list B)
    (f : A -> B -> S -> M S) s m :
  for_each xs (fun x => for_each (g x) (f x)) s m =
  for_each (xs ≫= (fun x => pair x <$> g x)) (fun p => f p.1 p.2) s m.
Proof.
  revert s m. induction xs as [| x xs IH]; intros s m; [done |].
  rewrite bind_cons, for_each_app. cbn [for_each].
  rewrite (bind_ext_l (for_each (pair x <$> g x) (fun p => f p.1 p.2) s)
             (for_each (g x) (f x) s))
    by (intros m';
        exact (for_each_fmap (pair x) (g x) (fun p => f p.1 p.2) s m')).
  apply bind_ext. intros s' m'. apply IH.
Qed.

(** The three loops of the orchestrator make the calls of the catalog, in
    its order. *)
Lemma loops_catalog {S} (call : string -> string -> string -> S -> M S) s m :
  for_each endpoints (fun ep =>
    for_each expiry_types (fun expiry =>
      for_each ep.2 (fun datatype => call ep.1 expiry datatype))) s m =
  for_each catalog
    (fun t => call (tg_endpoint t) (tg_expirytype t) (tg_datatype t)) s m.
Proof.
  erewrite for_each_ext; cycle 1.
  { intros ep s' m'.
    apply (for_each_nested expiry_types (fun _ => ep.2)
             (fun expiry datatype => call ep.1 expiry datatype)). }
  rewrite (for_each_nested endpoints
             (fun ep => expiry_types ≫= (fun x => pair x <$> ep.2))
             (fun ep p => call ep.1 p.1 p.2)).
  change catalog with
    ((fun p : (string * list string) * (string * string) =>
        mkTags p.2.2 p.2.1 p.1.1) <$>
     (endpoints ≫=
        (fun ep => pair ep <$> (expiry_types ≫= (fun x => pair x <$> ep.2))))).
  rewrite for_each_fmap. done.
Qed.

Lemma fetch_gainers_oi_catalog w api_obj all_data m :
  fetch_gainers_oi w api_obj all_data m =
  for_each catalog
    (fun t =>
       post_call w api_obj (tg_endpoint t) (tg_expirytype t) (tg_datatype t))
    all_data m.
Proof. apply (loops_catalog (post_call w api_obj)). Qed.

(** After the start-up login the program is: the 24 calls of the catalog,
    the PCR call, the saving. *)
Lemma main_after_login w api_obj m m1 :
  initialize_api w m = (Ret api_obj, m1) ->
  main w m =
  bind (for_each catalog
          (fun t =>
             post_call w api_obj (tg_endpoint t) (tg_expirytype t)
               (tg_datatype t)) [])
    (fun all_data =>
       do all_data <- pcr_call w api_obj all_data;
       combine_and_save all_data;; print Completed) m1.
Proof.
  intros Hinit. unfold main. erewrite bind_Ret by exact Hinit.
  unfold bind at 1. rewrite fetch_gainers_oi_catalog. done.
Qed.

Lemma collect_grows t df all_data : adds (fun _ => True) (collect t df all_data).
Proof. unfold collect, print, sleep. grows. Qed.


Lemma fetch_headers_token w api_obj :
  fetch_headers w api_obj !! "Authorization"
    = Some (HBearer (access_token api_obj)).
Proof. reflexivity. Qed.




(** ** Frames put together *)

Lemma elem_of_add_column c c' cols :
  c ∈ add_column c' cols <-> c = c' \/ c ∈ cols.
Proof.
  unfold add_column. destruct (decide (c' ∈ cols)) as [Hin | Hout].
  - split; [by right | intros [-> | H]; done].
  - rewrite elem_of_app, list_elem_of_singleton. tauto.
Qed.

Lemma elem_of_add_columns c cs cols :
  c ∈ add_columns cs cols <-> c ∈ cols \/ c ∈ cs.
Proof.
  unfold add_columns. revert cols.
  induction cs as [| c' cs IH]; intros cols; simpl.
  - rewrite elem_of_nil. tauto.
  - rewrite IH, elem_of_add_column, elem_of_cons. tauto.
Qed.

Lemma elem_of_columns_fold {A} (cols_of : A -> list string) c acc xs :
  c ∈ foldl (fun acc x => add_columns (cols_of x) acc) acc xs <->
  c ∈ acc \/ exists x, x ∈ xs /\ c ∈ cols_of x.
Proof.
  revert acc. induction xs as [| x xs IH]; intros acc; simpl.
  - split; [by left | intros [H | (x & Hx & _)]; [done |]].
    by apply elem_of_nil in Hx.
  - rewrite IH, elem_of_add_columns. split.
    + intros [[H | H] | (y & Hy & H)]; [by left | right | right].
      * exists x. split; [by left | done].
      * exists y. split; [by right | done].
    + intros [H | (y & Hy & H)]; [by left; left |].
      apply elem_of_cons in Hy as [-> | Hy]; [by left; right |].
      right. by exists y.
Qed.

Lemma elem_of_columns_concat c frames :
  c ∈ columns (pd_concat frames) <->
  exists df, df ∈ frames /\ c ∈ columns df.
Proof.
  unfold pd_concat. simpl. rewrite (elem_of_columns_fold columns).
  rewrite elem_of_nil. tauto.
Qed.

Lemma elem_of_columns_records c recs :
  c ∈ columns (from_records recs) <-> exists rec, rec ∈ recs /\ c ∈ rec.*1.
Proof.
  unfold from_records. simpl.
  rewrite (elem_of_columns_fold (fun r : list (string * json) => r.*1)).
  rewrite elem_of_nil. tauto.
Qed.

Lemma elem_of_columns_tag c t df :
  c ∈ columns (tag t df) <-> c ∈ the_tag_columns \/ c ∈ columns df.
Proof.
  unfold tag, set_col, the_tag_columns. simpl.
  rewrite !elem_of_add_column, !elem_of_cons, elem_of_nil. tauto.
Qed.

(** ** What the orchestrator keeps *)

Lemma non_empty_app xs ys : non_empty (xs ++ ys) = non_empty xs ++ non_empty ys.
Proof. apply filter_app. Qed.

Lemma agree_bind {S T S' T'} (R : S -> T -> Prop) (R' : S' -> T' -> Prop)
    (c : M S) (d : M T) (k : S -> M S') (h : T -> M T') m :
  agree R (c m) (d m) ->
  (forall s t m', R s t -> agree R' (k s m') (h t m')) ->
  agree R' (bind c k m) (bind d h m).
Proof.
  unfold agree, bind. intros [Hm Hr] Hk.
  destruct (c m) as [[s | | e] m1], (d m) as [[t | | e'] m2];
    simpl in *; subst; try done.
  by apply Hk.
Qed.

Lemma for_each_agree {A S T} (R : S -> T -> Prop) (xs : list A)
    (f : A -> S -> M S) (g : A -> T -> M T) :
  (forall x s t m, R s t -> agree R (f x s m) (g x t m)) ->
  forall s t m, R s t -> agree R (for_each xs f s m) (for_each xs g t m).
Proof.
  intros Hfg. induction xs as [| x xs IH]; intros s t m HR.
  - by split.
  - simpl. eapply agree_bind; [by apply Hfg | done].
Qed.

Lemma collect_keeps t df all_data returned m :
  all_data = non_empty returned ->
  agree (fun a r => a = non_empty r)
    (collect t df all_data m)
    (bind (collect t df []) (fun _ => ret (returned ++ [df])) m).
Proof.
  intros ->. unfold collect.
  assert (non_empty (returned ++ [df]) =
          if df_empty df then non_empty returned
          else non_empty returned ++ [df]) as Hkept.
  { rewrite non_empty_app. unfold non_empty at 2.
    rewrite filter_cons, filter_nil.
    destruct (df_empty df); case_decide; try done. by rewrite app_nil_r. }
  destruct (df_empty df); cbn [negb]; step; by split.
Qed.

Lemma post_call_keeps w api_obj endpoint expiry datatype all_data returned m :
  all_data = non_empty returned ->
  agree (fun a r => a = non_empty r)
    (post_call w api_obj endpoint expiry datatype all_data m)
    (post_call_kept w api_obj endpoint expiry datatype returned m).
Proof.
  intros HR. unfold post_call, post_call_kept. rewrite !print_run.
  eapply (agree_bind eq); [by split; [| destruct (fetch_post_data _ _ _ _ _ _ _ _).1] |].
  intros df ? m' <-. by apply collect_keeps.
Qed.

Lemma pcr_call_keeps w api_obj all_data returned m :
  all_data = non_empty returned ->
  agree (fun a r => a = non_empty r)
    (pcr_call w api_obj all_data m) (pcr_call_kept w api_obj returned m).
Proof.
  intros HR. unfold pcr_call, pcr_call_kept. rewrite !print_run.
  eapply (agree_bind eq); [by split; [| destruct (fetch_pcr_volume _ _ _ _ _).1] |].
  intros df ? m' <-. by apply collect_keeps.
Qed.

(** The frames the orchestrator has collected after the 25 calls are the
    non-empty ones among those the calls returned. *)
Lemma collected_are_the_non_empty w api_obj m :
  agree (fun a r => a = non_empty r)
    (bind (fetch_gainers_oi w api_obj []) (pcr_call w api_obj) m)
    (returned_frames w api_obj m).
Proof.
  unfold returned_frames.
  eapply (agree_bind (fun a r => a = non_empty r));
    [| intros s t m' HR; by apply pcr_call_keeps].
  unfold fetch_gainers_oi.
  rewrite (loops_catalog (post_call w api_obj)),
          (loops_catalog (post_call_kept w api_obj)).
  apply for_each_agree; [| done].
  intros. by apply post_call_keeps.
Qed.

Lemma post_call_grows w api_obj endpoint expiry datatype all_data :
  adds (fun _ => True)
    (post_call w api_obj endpoint expiry datatype all_data).
Proof.
  unfold post_call, fetch_post_data.
  apply adds_bind; [by apply adds_emit | intros _].
  apply adds_bind; [apply attempts_grows | intros df; apply collect_grows].
Qed.

Lemma post_call_kept_grows w api_obj endpoint expiry datatype returned :
  adds (fun _ => True)
    (post_call_kept w api_obj endpoint expiry datatype returned).
Proof.
  unfold post_call_kept, fetch_post_data.
  apply adds_bind; [by apply adds_emit | intros _].
  apply adds_bind; [apply attempts_grows | intros df].
  apply adds_bind; [apply collect_grows | intros _; apply adds_ret].
Qed.

Lemma returned_frames_grows w api_obj :
  adds (fun _ => True) (returned_frames w api_obj).
Proof.
  unfold returned_frames. apply adds_bind.
  - repeat (apply adds_for_each; intros ? ?). apply post_call_kept_grows.
  - intros returned. unfold pcr_call_kept, fetch_pcr_volume.
    apply adds_bind; [by apply adds_emit | intros _].
    apply adds_bind; [apply attempts_grows | intros df].
    apply adds_bind; [apply collect_grows | intros _; apply adds_ret].
Qed.

Lemma for_each_length {A B} (xs : list A) (f : A -> list B -> M (list B))
    s m s' m' :
  (forall x s m s' m',
     f x s m = (Ret s', m') -> length s' = S (length s)) ->
  for_each xs f s m = (Ret s', m') ->
  length s' = (length s + length xs)%nat.
Proof.
  intros Hf. revert s m. induction xs as [| x xs IH]; intros s m.
  - simpl. intros [= <- <-]. lia.
  - simpl. unfold bind. destruct (f x s m) as [[s1 | | e] m1] eqn:Hfx;
      [| discriminate | discriminate].
    intros Hrest. apply IH in Hrest. apply Hf in Hfx. lia.
Qed.

Lemma kept_one_more {B} (c : M B) (returned : list B) m r' m' :
  bind c (fun df => ret (returned ++ [df])) m = (Ret r', m') ->
  length r' = S (length returned).
Proof.
  unfold bind. destruct (c m) as [[df | | e] m1]; try discriminate.
  intros [= <- <-]. rewrite length_app. simpl. lia.
Qed.

Lemma returned_frames_length w api_obj m returned m' :
  returned_frames w api_obj m = (Ret returned, m') -> length returned = 25%nat.
Proof.
  unfold returned_frames. unfold bind at 1.
  rewrite (loops_catalog (post_call_kept w api_obj)).
  destruct (for_each catalog _ [] m) as [[r1 | | e] m1] eqn:Hloop;
    [| discriminate | discriminate].
  intros Hpcr.
  apply for_each_length in Hloop; cycle 1.
  { intros t s m2 s' m2'. unfold post_call_kept. rewrite print_run.
    intros Hcall.
    eapply (kept_one_more
              (do df <- fetch_post_data w api_obj (tg_endpoint t)
                          (tg_datatype t) (tg_expirytype t) 2 2;
               collect (mkTags (tg_datatype t) (tg_expirytype t)
                          (tg_endpoint t)) df [];; ret df)
              s (logged m2 [EvPrint (Fetching
                   (mkTags (tg_datatype t) (tg_expirytype t)
                      (tg_endpoint t)))])).
    etransitivity; [| exact Hcall]. step.
    apply bind_ext. intros df m3. step. done. }
  unfold pcr_call_kept in Hpcr. rewrite print_run in Hpcr.
  assert (length returned = S (length r1)) as Hlast.
  { apply (kept_one_more
             (do df <- fetch_pcr_volume w api_obj 2 2;
              collect pcr_tags df [];; ret df)
             r1 (logged m1 [EvPrint (Fetching pcr_tags)]) returned m').
    etransitivity; [| exact Hpcr]. step.
    apply bind_ext. intros df m3. step. done. }
  rewrite Hlast, Hloop. reflexivity.
Qed.

Lemma non_empty_nil_iff returned :
  non_empty returned = [] <-> Forall (fun df => df_empty df = true) returned.
Proof.
  unfold non_empty. induction returned as [| df returned IH].
  - split; [constructor | done].
  - rewrite filter_cons, Forall_cons. destruct (df_empty df); case_decide;
      try done.
    + rewrite IH. tauto.
    + split; [done | intros [? _]; done].
Qed.

Lemma non_empty_exists returned :
  Exists (fun df => df_empty df = false) returned -> non_empty returned <> [].
Proof.
  intros Hex Hnil. apply non_empty_nil_iff in Hnil.
  apply Exists_exists in Hex as (df & Hin & Hdf).
  rewrite Forall_forall in Hnil. specialize (Hnil df Hin). congruence.
Qed.

(** C9: after the start-up login, let [returned] be the frames the 25 calls
    returned.  If all of them are empty, the program prints that there is
    nothing to save and ends with the files as they were; otherwise it
    writes, under the fixed name and whatever was there before, the
    concatenation of exactly the non-empty frames: their rows in order with
    their cells as they were, and the union of their columns. *)
Theorem output_written_iff_data (w : World) (api_obj : Session)
    (m0 m1 m2 : Machine) (returned : list DataFrame) :
  initialize_api w m0 = (Ret api_obj, m1) ->
  returned_frames w api_obj m1 = (Ret returned, m2) ->
  length returned = 25%nat /\
  files m2 = files m0 /\
  (Forall (fun df => df_empty df = true) returned ->
   main w m0 =
   (Ret tt, logged m2 [EvPrint NoDataToSave; EvPrint Completed])) /\
  (Exists (fun df => df_empty df = false) returned ->
   let out := pd_concat (non_empty returned) in
   main w m0 =
   (Ret tt,
    mkMachine
      (trace m2 ++ [EvPrint (Saved OUTPUT_FILE); EvPrint Completed])
      (<[OUTPUT_FILE := out]> (files m0))) /\
   rows out = concat (rows <$> non_empty returned) /\
   forall c,
     c ∈ columns out <-> exists df, df ∈ non_empty returned /\ c ∈ columns df).
Proof.
  intros Hinit Hret.
  assert (files m2 = files m0) as Hfiles.
  { destruct (initialize_api_grows w m0) as (l0 & Hl0 & _).
    destruct (returned_frames_grows w api_obj m1) as (l1 & Hl1 & _).
    rewrite Hinit in Hl0. rewrite Hret in Hl1. simpl in *. by subst. }
  assert (main w m0 =
          (combine_and_save (non_empty returned);; print Completed) m2)
    as Hmain.
  { unfold main. erewrite bind_Ret by exact Hinit.
    rewrite <- (bind_assoc (fetch_gainers_oi w api_obj [])
                  (pcr_call w api_obj)
                  (fun all_data => combine_and_save all_data;;
                                   print Completed)).
    pose proof (collected_are_the_non_empty w api_obj m1) as [Hm Hr].
    rewrite Hret in Hm, Hr. simpl in Hm, Hr.
    destruct (bind (fetch_gainers_oi w api_obj []) (pcr_call w api_obj) m1)
      as [[all_data | | e] m'] eqn:Hrun; simpl in *; try done.
    subst. by erewrite bind_Ret. }
  split; [by eapply returned_frames_length |].
  split; [exact Hfiles |]. split.
  - intros Hall. apply non_empty_nil_iff in Hall.
    rewrite Hmain, Hall. unfold combine_and_save. step.
    rewrite print_end. by step.
  - intros Hsome out. apply non_empty_exists in Hsome.
    split; [| split].
    + rewrite Hmain. unfold combine_and_save.
      destruct (non_empty returned) as [| df kept] eqn:Hkept; [done |].
      rewrite <- Hfiles. unfold bind, to_csv, print, emit. simpl.
      by rewrite <- app_assoc.
    + reflexivity.
    + intros c. apply elem_of_columns_concat.
Qed.

(** ** A run in which every call brings one row *)

Lemma served_records_app t1 t2 :
  served_records (t1 ++ t2) = served_records t1 ++ served_records t2.
Proof. apply bind_app. Qed.

Lemma reply_records_one r members rec :
  is_http_error r = false ->
  body r = Some (JObj members) ->
  truthy_opt (dict_of members !! "status") = true ->
  dict_of members !! "data" = Some (JArr [JObj rec]) ->
  reply_records (ReplyResponse r) = [rec].
Proof.
  intros Hok Hbody Hst Hdata. unfold reply_records.
  rewrite Hok, Hbody.
  rewrite (fetch_check_data members (JArr [JObj rec])) by done.
  reflexivity.
Qed.

Lemma served_records_http req rep l :
  served_records (EvHttp req rep :: l) =
  (if is_login req then [] else reply_records rep) ++ served_records l.
Proof. reflexivity. Qed.

Lemma served_records_print msg l :
  served_records (EvPrint msg :: l) = served_records l.
Proof. reflexivity. Qed.

Lemma served_records_sleep n l :
  served_records (EvSleep n :: l) = served_records l.
Proof. reflexivity. Qed.

Section OneRowEach.

Context (w : World) (api_obj : Session).

Hypothesis one_row_each :
  forall now req,
    is_login req = false ->
    exists r members rec,
      http w now req = ReplyResponse r /\
      is_http_error r = false /\
      body r = Some (JObj members) /\
      truthy_opt (dict_of members !! "status") = true /\
      dict_of members !! "data" = Some (JArr [JObj rec]).

Lemma fetch_and_collect_one_row mth endpoint payload t all_data m :
  let req := mkRequest mth (market_url endpoint) (fetch_headers w api_obj)
               payload in
  exists rec l,
    bind (attempts w mth (market_url endpoint) payload t 2 2 3 0 api_obj
            (fetch_headers w api_obj) None)
         (fun df => collect t df all_data) m =
    (Ret (all_data ++ [one_row_frame t rec]), logged m l) /\
    served_records l = [rec] /\
    data_calls l = [req].
Proof.
  intros req.
  destruct (one_row_each (trace m) req eq_refl)
    as (r & members & rec & Hrep & Hok & Hbody & Hst & Hdata).
  exists rec. eexists. split; [| split].
  - erewrite bind_Ret; cycle 1.
    { eapply (attempts_records w mth (market_url endpoint) payload t 2 2 2 0
                api_obj (fetch_headers w api_obj) None m r members [rec]);
        done. }
    unfold collect.
    rewrite (proj1 (proj2 (tagged_records_shape t [rec] ltac:(done)))).
    cbn [negb]. step. reflexivity.
  - cbn [app].
    rewrite served_records_http, !served_records_print, served_records_sleep.
    rewrite (reply_records_one r members rec) by done. reflexivity.
  - count_calls. reflexivity.
Qed.

Lemma post_call_one_row t all_data m :
  let req := post_request (fetch_headers w api_obj) (tg_endpoint t)
               (tg_datatype t) (tg_expirytype t) in
  exists rec l,
    post_call w api_obj (tg_endpoint t) (tg_expirytype t) (tg_datatype t)
      all_data m =
    (Ret (all_data ++ [one_row_frame t rec]), logged m l) /\
    served_records l = [rec] /\
    data_calls l = [req].
Proof.
  intros req. unfold post_call, fetch_post_data. rewrite print_run.
  destruct t as [datatype expiry endpoint].
  cbn [tg_endpoint tg_datatype tg_expirytype] in *.
  destruct (fetch_and_collect_one_row POST endpoint
              (Some [("datatype", datatype); ("expirytype", expiry)])
              (mkTags datatype expiry endpoint) all_data
              (logged m [EvPrint (Fetching (mkTags datatype expiry endpoint))]))
    as (rec & l & Hrun & Hrecs & Hcalls).
  exists rec. eexists. split; [| split].
  - etransitivity; [exact Hrun |]. rewrite logged_app. reflexivity.
  - rewrite served_records_app, Hrecs. reflexivity.
  - rewrite data_calls_app, Hcalls. reflexivity.
Qed.

Lemma pcr_call_one_row all_data m :
  let req := mkRequest GET (market_url "putCallRatio")
               (fetch_headers w api_obj) None in
  exists rec l,
    pcr_call w api_obj all_data m =
    (Ret (all_data ++ [one_row_frame pcr_tags rec]), logged m l) /\
    served_records l = [rec] /\
    data_calls l = [req].
Proof.
  intros req. unfold pcr_call, fetch_pcr_volume. rewrite print_run.
  destruct (fetch_and_collect_one_row GET "putCallRatio" None pcr_tags
              all_data (logged m [EvPrint (Fetching pcr_tags)]))
    as (rec & l & Hrun & Hrecs & Hcalls).
  exists rec. eexists. split; [| split].
  - etransitivity; [exact Hrun |]. rewrite logged_app. reflexivity.
  - rewrite served_records_app, Hrecs. reflexivity.
  - rewrite data_calls_app, Hcalls. reflexivity.
Qed.

Lemma calls_one_row ts all_data m :
  exists recs l,
    for_each ts
      (fun t =>
         post_call w api_obj (tg_endpoint t) (tg_expirytype t) (tg_datatype t))
      all_data m =
    (Ret (all_data ++ zip_with one_row_frame ts recs), logged m l) /\
    length recs = length ts /\
    served_records l = recs /\
    data_calls l =
      (fun t => post_request (fetch_headers w api_obj) (tg_endpoint t)
                  (tg_datatype t) (tg_expirytype t)) <$> ts.
Proof.
  revert all_data m. induction ts as [| t ts IH]; intros all_data m.
  - exists [], []. simpl. rewrite app_nil_r, logged_nil. done.
  - destruct (post_call_one_row t all_data m)
      as (rec & l & Hrun & Hrecs & Hcalls).
    destruct (IH (all_data ++ [one_row_frame t rec]) (logged m l))
      as (recs & l' & Hrun' & Hlen & Hrecs' & Hcalls').
    exists (rec :: recs), (l ++ l'). split; [| split; [| split]].
    + cbn [for_each]. erewrite bind_Ret by exact Hrun.
      rewrite Hrun', logged_app, <- app_assoc. reflexivity.
    + simpl. by rewrite Hlen.
    + rewrite served_records_app, Hrecs, Hrecs'. reflexivity.
    + rewrite data_calls_app, Hcalls, Hcalls'. reflexivity.
Qed.

End OneRowEach.

Lemma one_row_frames_rows ts recs :
  length recs = length ts ->
  length (rows (pd_concat (zip_with one_row_frame ts recs))) = length ts.
Proof.
  unfold pd_concat. simpl. revert recs.
  induction ts as [| t ts IH]; intros [| rec recs] Hlen; try done.
  simpl in *. f_equal. apply IH. lia.
Qed.

Lemma one_row_frames_columns ts recs c :
  length recs = length ts ->
  (exists df, df ∈ zip_with one_row_frame ts recs /\ c ∈ columns df) <->
  (recs <> [] /\ c ∈ the_tag_columns) \/
  exists rec, rec ∈ recs /\ c ∈ rec.*1.
Proof.
  revert recs. induction ts as [| t ts IH]; intros [| rec recs] Hlen;
    try done.
  - simpl. split.
    + intros (df & Hin & _). by apply elem_of_nil in Hin.
    + intros [[? _] | (rec & Hin & _)]; [done |].
      by apply elem_of_nil in Hin.
  - simpl in Hlen. injection Hlen as Hlen. specialize (IH recs Hlen).
    assert (forall c, c ∈ columns (one_row_frame t rec) <->
                      c ∈ the_tag_columns \/ c ∈ rec.*1) as Hone.
    { intros c'. unfold one_row_frame.
      rewrite elem_of_columns_tag, elem_of_columns_records.
      split; intros [H | H]; [by left | right | by left | right].
      - destruct H as (rec' & Hin & H).
        apply list_elem_of_singleton in Hin. by subst.
      - exists rec. split; [by apply list_elem_of_singleton | done]. }
    simpl. split.
    + intros (df & Hin & Hc). apply elem_of_cons in Hin as [-> | Hin].
      * apply Hone in Hc as [Hc | Hc]; [by left |].
        right. exists rec. split; [by left | done].
      * destruct (proj1 IH (ex_intro _ df (conj Hin Hc)))
          as [[_ Htag] | (rec' & Hin' & Hc')]; [by left |].
        right. exists rec'. split; [by right | done].
    + intros [[_ Htag] | (rec' & Hin & Hc)].
      * exists (one_row_frame t rec). split; [by left |].
        apply Hone. by left.
      * apply elem_of_cons in Hin as [-> | Hin].
        -- exists (one_row_frame t rec). split; [by left |].
           apply Hone. by right.
        -- destruct (proj2 IH (or_intror (ex_intro _ rec' (conj Hin Hc))))
             as (df & Hdf & Hcdf).
           exists df. split; [by right | done].
Qed.

Lemma combine_and_save_some all_data m :
  all_data <> [] ->
  (combine_and_save all_data;; print Completed) m =
  (Ret tt,
   mkMachine (trace m ++ [EvPrint (Saved OUTPUT_FILE); EvPrint Completed])
     (<[OUTPUT_FILE := pd_concat all_data]> (files m))).
Proof.
  intros Hne. unfold combine_and_save.
  destruct all_data as [| df rest]; [done |].
  unfold bind, to_csv, print, emit. simpl. by rewrite <- app_assoc.
Qed.

(** C3: after the start-up login the program makes the 24 POST calls of
    the catalog (the four datatypes of each of the two endpoints, for each
    of the three expiry types) and then the one GET call.  When every
    market-data request is answered with one record, that makes 25
    requests, and the file written under the fixed name has 25 rows, its
    columns being the three tag columns and the fields of the 25 records
    served. *)
Theorem twenty_five_calls_one_row_each (w : World) (api_obj : Session)
    (m0 m1 : Machine) :
  initialize_api w m0 = (Ret api_obj, m1) ->
  (forall now req,
     is_login req = false ->
     exists r members rec,
       http w now req = ReplyResponse r /\
       is_http_error r = false /\
       body r = Some (JObj members) /\
       truthy_opt (dict_of members !! "status") = true /\
       dict_of members !! "data" = Some (JArr [JObj rec])) ->
  (length catalog = 24%nat /\
   catalog =
     endpoints ≫= (fun ep =>
       expiry_types ≫= (fun expiry =>
         (fun datatype => mkTags datatype expiry ep.1) <$> ep.2))) /\
  main w m0 =
    bind (for_each catalog
            (fun t =>
               post_call w api_obj (tg_endpoint t) (tg_expirytype t)
                 (tg_datatype t)) [])
      (fun all_data =>
         do all_data <- pcr_call w api_obj all_data;
         combine_and_save all_data;; print Completed) m1 /\
  exists recs m' out,
    main w m0 = (Ret tt, m') /\
    data_calls (trace m') =
      data_calls (trace m0) ++
      ((fun t => post_request (fetch_headers w api_obj) (tg_endpoint t)
                   (tg_datatype t) (tg_expirytype t)) <$> catalog) ++
      [mkRequest GET (market_url "putCallRatio") (fetch_headers w api_obj)
         None] /\
    served_records (trace m') = served_records (trace m0) ++ recs /\
    length recs = 25%nat /\
    files m' = <[OUTPUT_FILE := out]> (files m0) /\
    length (rows out) = 25%nat /\
    forall c,
      c ∈ columns out <->
      c ∈ the_tag_columns \/ exists rec, rec ∈ recs /\ c ∈ rec.*1.
Proof.
  intros Hinit Hone.
  split; [by split |].
  pose proof (main_after_login w api_obj m0 m1 Hinit) as Hmain.
  split; [exact Hmain |].
  destruct (initialize_api_Ret _ _ _ _ Hinit)
    as (totp & r0 & data0 & _ & _ & _ & _ & _ & Hm1).
  destruct (calls_one_row w api_obj Hone catalog [] m1)
    as (recs & l & Hloop & Hlen & Hrecs & Hcalls).
  destruct (pcr_call_one_row w api_obj Hone
              ([] ++ zip_with one_row_frame catalog recs) (logged m1 l))
    as (rec & l' & Hpcr & Hrecs' & Hcalls').
  set (frames := zip_with one_row_frame (catalog ++ [pcr_tags])
                   (recs ++ [rec])).
  assert (([] ++ zip_with one_row_frame catalog recs) ++
          [one_row_frame pcr_tags rec] = frames) as Hframes.
  { unfold frames. rewrite zip_with_app by done. reflexivity. }
  rewrite Hframes in Hpcr.
  assert (length (recs ++ [rec]) = length (catalog ++ [pcr_tags])) as Hlen'.
  { rewrite !length_app, Hlen. reflexivity. }
  assert (frames <> []) as Hne.
  { intros Hf. apply (f_equal length) in Hf. unfold frames in Hf.
    rewrite length_zip_with, Hlen' in Hf. simpl in Hf. lia. }
  exists (recs ++ [rec]). eexists. exists (pd_concat frames).
  split; [| split; [| split; [| split; [| split; [| split]]]]].
  - rewrite Hmain. erewrite bind_Ret by exact Hloop.
    erewrite bind_Ret by exact Hpcr.
    by apply combine_and_save_some.
  - rewrite Hm1. count_calls.
    rewrite Hcalls, Hcalls', <- !app_assoc. reflexivity.
  - rewrite Hm1. unfold logged. cbn [trace files].
    rewrite !served_records_app, Hrecs, Hrecs'.
    rewrite served_records_http, login_request_is_login.
    rewrite !served_records_print. cbn [served_records mbind list_bind app].
    rewrite !app_nil_r, <- !app_assoc. reflexivity.
  - rewrite Hlen'. reflexivity.
  - simpl. rewrite Hm1. reflexivity.
  - unfold frames. rewrite (one_row_frames_rows _ _ Hlen'). reflexivity.
  - intros c. rewrite elem_of_columns_concat. unfold frames.
    rewrite (one_row_frames_columns _ _ c Hlen'). split.
    + intros [[_ H] | H]; [by left | by right].
    + intros [H | H]; [left | by right].
      split; [| done]. by destruct recs.
Qed.

Lemma output_written_iff_data_witness :
  let w := mock full_env (fun _ => login_reply 200 "T1")
             (fun _ _ => data_reply []) in
  exists m2,
    (returned_frames w (a_session "T1") (initialize_api w start).2).1
      = Ret (replicate 25 empty_frame) /\
    main w start =
      (Ret tt, logged m2 [EvPrint NoDataToSave; EvPrint Completed]) /\
    files m2 = ∅.
Proof.
  intros w.
  set (m1 := (initialize_api w start).2).
  set (run := returned_frames w (a_session "T1") m1).
  assert (initialize_api w start = (Ret (a_session "T1"), m1)) as Hinit
    by (vm_compute; reflexivity).
  assert (run.1 = Ret (replicate 25 empty_frame)) as Hrun
    by (vm_compute; reflexivity).
  assert (returned_frames w (a_session "T1") m1
          = (Ret (replicate 25 empty_frame), run.2)) as Hret.
  { fold run. rewrite <- Hrun. by destruct run. }
  exists run.2. split; [exact Hrun |].
  destruct (output_written_iff_data w (a_session "T1") start m1 run.2
              (replicate 25 empty_frame) Hinit Hret)
    as (_ & Hfiles & Hnothing & _).
  split; [| exact Hfiles].
  apply Hnothing. simpl. repeat constructor.
Defined.

(** The other branch, on a run whose last call alone brings a row. *)
Example output_written_run :
  let w := mock full_env (fun _ => login_reply 200 "T1")
             (fun n _ => if Nat.eqb n 24
                         then data_reply [[("pcr", JNum 1)]]
                         else data_reply []) in
  let m' := (main w (mkMachine [] {[OUTPUT_FILE := empty_frame]})).2 in
  files m' =
  {[OUTPUT_FILE :=
      mkFrame ["pcr"; "DataType"; "ExpiryType"; "Endpoint"]
        [list_to_map
           [("pcr", JNum 1); ("DataType", JStr "PCR Volume");
            ("ExpiryType", JStr "N/A"); ("Endpoint", JStr "putCallRatio")]]]}.
Proof. vm_compute. reflexivity. Qed.

Lemma twenty_five_calls_one_row_each_witness :
  let fields req :=
    match req_method req with
    | POST => sample_row "NIFTY" 5
    | GET => [("pcr", JNum 1); ("tradingSymbol", JStr "NIFTY")]
    end in
  let w := mock full_env (fun _ => login_reply 200 "T1")
             (fun _ req => data_reply [fields req]) in
  exists recs m' out,
    main w start = (Ret tt, m') /\
    length (data_calls (trace m')) = 25%nat /\
    served_records (trace m') = recs /\
    length recs = 25%nat /\
    files m' = {[OUTPUT_FILE := out]} /\
    length (rows out) = 25%nat /\
    forall c,
      c ∈ columns out <->
      c ∈ the_tag_columns \/ exists rec, rec ∈ recs /\ c ∈ rec.*1.
Proof.
  intros fields w.
  set (m1 := (initialize_api w start).2).
  assert (initialize_api w start = (Ret (a_session "T1"), m1)) as Hinit
    by (vm_compute; reflexivity).
  assert (forall now req,
            is_login req = false ->
            exists r members rec,
              http w now req = ReplyResponse r /\
              is_http_error r = false /\
              body r = Some (JObj members) /\
              truthy_opt (dict_of members !! "status") = true /\
              dict_of members !! "data" = Some (JArr [JObj rec])) as Hone.
  { intros now req Hreq. eexists _, _, (fields req).
    split; [| split; [| split; [| split]]].
    - unfold w, mock. cbn [http]. rewrite Hreq. reflexivity.
    - reflexivity.
    - reflexivity.
    - vm_compute. reflexivity.
    - vm_compute. reflexivity. }
  destruct (proj2 (proj2 (twenty_five_calls_one_row_each w (a_session "T1")
                            start m1 Hinit Hone)))
    as (recs & m' & out & Hmain & Hcalls & Hrecs & Hlen & Hfiles & Hrows
        & Hcols).
  exists recs, m', out.
  split; [exact Hmain |]. split.
  { rewrite Hcalls. reflexivity. }
  split; [exact Hrecs |]. split; [exact Hlen |].
  split; [exact Hfiles |]. split; [exact Hrows | exact Hcols].
Defined.

(** * Further properties of the script *)

(** ** The authenticator, when the login is accepted *)

Lemma present_passes_check w key user pin secret :
  getenv w "API_KEY" = Some key -> getenv w "USER_NAME" = Some user ->
  getenv w "MPIN" = Some pin -> getenv w "TOTP_SECRET" = Some secret ->
  key <> "" -> user <> "" -> pin <> "" -> secret <> "" ->
  forallb env_truthy
    [getenv w "API_KEY"; getenv w "USER_NAME"; getenv w "MPIN";
     getenv w "TOTP_SECRET"] = true.
Proof.
  intros -> -> -> -> Hk Hu Hp Hs. simpl.
  apply String.eqb_neq in Hk, Hu, Hp, Hs. by rewrite Hk, Hu, Hp, Hs.
Qed.

Lemma login_check_token members dm tok :
  truthy_opt (dict_of members !! "status") = true ->
  dict_of members !! "data" = Some (JObj dm) ->
  dict_of dm !! "jwtToken" = Some tok ->
  truthy tok = true ->
  login_check (JObj members) = inr (Some tok).
Proof.
  intros Hst Hd Htok Ht. unfold login_check. simpl.
  rewrite Hst, Hd. simpl. rewrite Htok. simpl. by rewrite Ht.
Qed.

(** X1: with the four configuration values present, a one-time code, and a
    login response that passes the status check and whose body has a true
    [status] and a [data] object with a true [jwtToken], the authenticator
    returns a session whose token is that [jwtToken] and whose key is the
    API key, after exactly one request: a POST to the login URL whose body
    is the client code, the MPIN and the one-time code, with the API key in
    X-PrivateKey and no Authorization header. *)
Theorem login_yields_token (w : World) (m : Machine)
    (key user pin secret totp : string) (r : Response)
    (members dm : list (string * json)) (tok : json) :
  getenv w "API_KEY" = Some key -> getenv w "USER_NAME" = Some user ->
  getenv w "MPIN" = Some pin -> getenv w "TOTP_SECRET" = Some secret ->
  key <> "" -> user <> "" -> pin <> "" -> secret <> "" ->
  totp_now w (trace m) secret = Some totp ->
  let req := login_request w (trace m) totp in
  http w (trace m) req = ReplyResponse r ->
  is_http_error r = false ->
  body r = Some (JObj members) ->
  truthy_opt (dict_of members !! "status") = true ->
  dict_of members !! "data" = Some (JObj dm) ->
  dict_of dm !! "jwtToken" = Some tok ->
  truthy tok = true ->
  exists s,
    initialize_api w m =
    (Ret s,
     logged m [EvHttp req (ReplyResponse r); EvPrint SessionInitialized;
               EvPrint (SessionResponse (JObj members))]) /\
    access_token s = tok /\
    smart_api_key s = key /\
    req_method req = POST /\ req_url req = login_url /\
    req_json req = Some [("clientcode", user); ("mpin", pin); ("totp", totp)] /\
    req_headers req !! "X-PrivateKey" = Some (HStr key) /\
    req_headers req !! "Authorization" = None.
Proof.
  intros Hkey Huser Hpin Hsecret Hk Hu Hp Hs Htotp req Hrep Hok Hbody Hst Hd
    Htok Ht.
  pose proof (present_passes_check w key user pin secret Hkey Huser Hpin
                Hsecret Hk Hu Hp Hs) as Hcheck.
  assert (totp_now w (trace m) (default "" (getenv w "TOTP_SECRET"))
          = Some totp) as Htotp' by (by rewrite Hsecret).
  eexists. split.
  - unfold initialize_api. rewrite Hcheck. cbn [negb].
    rewrite bind_history, Htotp', send_run. fold req.
    rewrite Hrep, Hok, Hbody.
    rewrite (login_check_token members dm tok) by done.
    step. rewrite ret_end. reflexivity.
  - unfold req, login_request. rewrite Hkey, Huser, Hpin. simpl.
    repeat split; reflexivity.
Qed.

Lemma empty_fails_check w k :
  k ∈ required -> getenv w k = Some "" ->
  forallb env_truthy
    [getenv w "API_KEY"; getenv w "USER_NAME"; getenv w "MPIN";
     getenv w "TOTP_SECRET"] = false.
Proof.
  unfold required. intros Hk Hempty.
  repeat (apply elem_of_cons in Hk as [-> | Hk];
          [rewrite Hempty; simpl; by rewrite ?andb_false_r |]).
  by apply elem_of_nil in Hk.
Qed.

(** X2: a required configuration value that is set but empty counts as
    missing: the authenticator prints the missing-credentials line and
    ends the process without computing a code or sending a request. *)
Theorem empty_config_value_is_missing (w : World) (m : Machine) (k : string) :
  k ∈ required -> getenv w k = Some "" ->
  initialize_api w m = (Exit, logged m [EvPrint MissingCredentials]).
Proof.
  intros Hk Hempty. apply initialize_api_unchecked.
  by apply (empty_fails_check w k).
Qed.

(** ** The GET fetcher *)

(** X3: at any iteration of the GET fetcher's loop, a response that passes
    the status check and whose body has a true [status] and a non-empty
    [data] array of [N] records ends the call with a frame of [N] rows,
    each labelled PCR Volume / N/A / putCallRatio; the request was a GET of
    the putCallRatio URL without a body. *)
Theorem pcr_fetch_rows_tagged (w : World) (api_obj : Session)
    (retries delay todo attempt : nat) (headers : gmap string hval)
    (response : option Response) (m : Machine) (r : Response)
    (members : list (string * json)) (recs : list (list (string * json))) :
  let req := mkRequest GET (market_url "putCallRatio") headers None in
  http w (trace m) req = ReplyResponse r ->
  is_http_error r = false ->
  body r = Some (JObj members) ->
  truthy_opt (dict_of members !! "status") = true ->
  dict_of members !! "data" = Some (JArr (JObj <$> recs)) ->
  recs <> [] ->
  exists df,
    attempts w GET (market_url "putCallRatio") None pcr_tags retries delay
      (S todo) attempt api_obj headers response m =
    (Ret df,
     logged m [EvHttp req (ReplyResponse r);
               EvPrint (ResponseDump pcr_tags (JObj members));
               EvPrint (Fetched pcr_tags)]) /\
    length (rows df) = length recs /\
    df_empty df = false /\
    Forall (fun row =>
              row !! "DataType" = Some (JStr "PCR Volume") /\
              row !! "ExpiryType" = Some (JStr "N/A") /\
              row !! "Endpoint" = Some (JStr "putCallRatio"))
           (rows df).
Proof.
  intros req Hrep Hok Hbody Hst Hdata Hne.
  eexists. split.
  - by eapply attempts_records.
  - by apply (tagged_records_shape pcr_tags).
Qed.

(** ** Bodies that bring nothing *)

Lemma fetch_check_not_object data :
  as_object data = None -> fetch_check data = inl AttributeError.
Proof. by destruct data. Qed.

(** X4: for either fetcher, at any iteration, a response that passes the
    status check but whose body is not JSON, or is JSON but not an object,
    ends the call with the empty frame after that one request and an error
    line: such a body is not retried. *)
Theorem unusable_body_abandons (w : World) (mth : method) (url : string)
    (payload : option (list (string * string))) (t : tags)
    (retries delay todo attempt : nat) (api_obj : Session)
    (headers : gmap string hval) (response : option Response) (m : Machine)
    (r : Response) :
  let req := mkRequest mth url headers payload in
  http w (trace m) req = ReplyResponse r ->
  is_http_error r = false ->
  (body r = None ->
   attempts w mth url payload t retries delay (S todo) attempt api_obj
     headers response m =
   (Ret empty_frame,
    logged m [EvHttp req (ReplyResponse r);
              EvPrint (FetchError t (S attempt) (S retries)
                         JSONDecodeError)])) /\
  (forall data,
     body r = Some data -> as_object data = None ->
     attempts w mth url payload t retries delay (S todo) attempt api_obj
       headers response m =
     (Ret empty_frame,
      logged m [EvHttp req (ReplyResponse r);
                EvPrint (ResponseDump t data);
                EvPrint (FetchError t (S attempt) (S retries)
                           AttributeError)])).
Proof.
  intros req Hrep Hok. split.
  - intros Hbody.
    erewrite attempts_response by (exact Hrep || exact Hok).
    unfold on_response. rewrite Hbody. by step.
  - intros data Hbody Hobj.
    erewrite attempts_response by (exact Hrep || exact Hok).
    unfold on_response. rewrite Hbody.
    rewrite (fetch_check_not_object data Hobj). by step.
Qed.

(** X5: for either fetcher, when the body has a true [status] and a true
    [data] that [pd.DataFrame] rejects, the success line has already been
    printed, and the call still ends with the empty frame after an error
    line, without a retry. *)
Theorem rejected_data_abandons (w : World) (mth : method) (url : string)
    (payload : option (list (string * string))) (t : tags)
    (retries delay todo attempt : nat) (api_obj : Session)
    (headers : gmap string hval) (response : option Response) (m : Machine)
    (r : Response) (members : list (string * json)) (d : json) :
  let req := mkRequest mth url headers payload in
  http w (trace m) req = ReplyResponse r ->
  is_http_error r = false ->
  body r = Some (JObj members) ->
  truthy_opt (dict_of members !! "status") = true ->
  dict_of members !! "data" = Some d ->
  truthy d = true ->
  pd_DataFrame w d = None ->
  attempts w mth url payload t retries delay (S todo) attempt api_obj
    headers response m =
  (Ret empty_frame,
   logged m [EvHttp req (ReplyResponse r);
             EvPrint (ResponseDump t (JObj members));
             EvPrint (Fetched t);
             EvPrint (FetchError t (S attempt) (S retries) ValueError)]).
Proof.
  intros req Hrep Hok Hbody Hst Hd Ht Hdf.
  erewrite attempts_response by (exact Hrep || exact Hok).
  unfold on_response. rewrite Hbody.
  rewrite (fetch_check_data members d) by done.
  step. rewrite Hdf. by step.
Qed.

(** ** HTTP errors that are not retried *)

(** X6: for either fetcher, an HTTP-error response at the last iteration
    (no retries left) whose details can be logged ends the call with the
    empty frame: the error line, the details, the final failure line,
    and neither a sleep nor a login. *)
Theorem last_http_error_gives_up (w : World) (mth : method) (url : string)
    (payload : option (list (string * string))) (t : tags)
    (retries delay attempt : nat) (api_obj : Session)
    (headers : gmap string hval) (response : option Response) (m : Machine)
    (r : Response) :
  let req := mkRequest mth url headers payload in
  (retries <= attempt)%nat ->
  http w (trace m) req = ReplyResponse r ->
  is_http_error r = true ->
  details_loggable r = true ->
  attempts w mth url payload t retries delay 1 attempt api_obj headers
    response m =
  (Ret empty_frame,
   logged m ([EvHttp req (ReplyResponse r);
              EvPrint (HttpErrorLine t (S attempt) (S retries))] ++
             details_lines r ++ [EvPrint (FetchFailed t (S retries))])).
Proof.
  intros req Hge Hrep Herr Hlog.
  rewrite (attempts_last w mth url payload t retries delay 0 attempt api_obj
             headers response m r) by done.
  cbn [attempts]. rewrite print_run, ret_end, logged_app, <- !app_assoc.
  reflexivity.
Qed.

(** X7: for either fetcher, at any iteration, a 403 response whose body
    does not parse makes the handler fail while it builds the details
    line: the call ends with that exception right after the error line,
    whatever the number of retries left, without sleep, login or result. *)
Theorem forbidden_without_json_raises (w : World) (mth : method) (url : string)
    (payload : option (list (string * string))) (t : tags)
    (retries delay todo attempt : nat) (api_obj : Session)
    (headers : gmap string hval) (response : option Response) (m : Machine)
    (r : Response) :
  let req := mkRequest mth url headers payload in
  http w (trace m) req = ReplyResponse r ->
  status_code r = 403%Z ->
  body r = None ->
  attempts w mth url payload t retries delay (S todo) attempt api_obj
    headers response m =
  (Raise JSONDecodeError,
   logged m [EvHttp req (ReplyResponse r);
             EvPrint (HttpErrorLine t (S attempt) (S retries))]).
Proof.
  intros req Hrep H403 Hbody.
  assert (is_http_error r = true) as Herr.
  { unfold is_http_error. rewrite H403. reflexivity. }
  erewrite attempts_http_error_response; [| exact Hrep | exact Herr].
  unfold on_http_error, forbidden_details. rewrite H403, Hbody.
  simpl. step. done.
Qed.

(** ** How many requests a program can send *)

Lemma spends_weaken {A} n k n' k' (c : M A) :
  (n <= n')%nat -> (k <= k')%nat -> spends n k c -> spends n' k' c.
Proof.
  intros Hn Hk Hc m. destruct (Hc m) as (l & Hl & Hd & Hg).
  exists l. split; [done |]. split; lia.
Qed.

Lemma spends_nothing {A} (c : M A) :
  (forall m, exists l, (c m).2 = logged m l /\ network_calls l = []) ->
  spends 0 0 c.
Proof.
  intros Hc m. destruct (Hc m) as (l & Hl & Hnone).
  exists l. split; [done |]. unfold data_calls, login_calls.
  rewrite Hnone. simpl. lia.
Qed.

Lemma spends_ret {A} (a : A) : spends 0 0 (ret a).
Proof. apply spends_nothing. intros m. exists []. by rewrite logged_nil. Qed.

Lemma spends_exit {A} : spends 0 0 (@exit A).
Proof. apply spends_nothing. intros m. exists []. by rewrite logged_nil. Qed.

Lemma spends_raise {A} e : spends 0 0 (@raise A e).
Proof. apply spends_nothing. intros m. exists []. by rewrite logged_nil. Qed.

Lemma spends_print msg : spends 0 0 (print msg).
Proof. apply spends_nothing. intros m. by exists [EvPrint msg]. Qed.

Lemma spends_sleep n : spends 0 0 (sleep n).
Proof. apply spends_nothing. intros m. by exists [EvSleep n]. Qed.

Lemma spends_bind {A B} n1 k1 n2 k2 (c : M A) (f : A -> M B) :
  spends n1 k1 c -> (forall a, spends n2 k2 (f a)) ->
  spends (n1 + n2) (k1 + k2) (bind c f).
Proof.
  intros Hc Hf m. destruct (Hc m) as (l & Hl & Hd & Hg).
  unfold bind. destruct (c m) as [[a | | e] m1]; simpl in Hl; subst m1.
  - destruct (Hf a (logged m l)) as (l' & Hl' & Hd' & Hg').
    exists (l ++ l'). rewrite Hl', logged_app. split; [done |].
    rewrite data_calls_app, login_calls_app, !length_app. lia.
  - exists l. split; [done |]. lia.
  - exists l. split; [done |]. lia.
Qed.

Lemma spends_for_each {A S} n k (xs : list A) (f : A -> S -> M S) s :
  (forall x s', spends n k (f x s')) ->
  spends (n * length xs) (k * length xs) (for_each xs f s).
Proof.
  intros Hf. revert s. induction xs as [| x xs IH]; intros s.
  - simpl. rewrite !Nat.mul_0_r. apply spends_ret.
  - simpl. apply (spends_weaken (n + n * length xs) (k + k * length xs));
      [lia | lia |].
    apply spends_bind; [apply Hf | apply IH].
Qed.

Lemma spends_same {A} n k (c c' : M A) :
  (forall m, c m = c' m) -> spends n k c -> spends n k c'.
Proof. intros Heq Hc m. rewrite <- Heq. apply Hc. Qed.

(** The authenticator sends at most its one login request. *)
Lemma initialize_api_spends w : spends 0 1 (initialize_api w).
Proof.
  intros m. unfold initialize_api.
  destruct (forallb _ _); cbn [negb]; cycle 1.
  { eexists. split; [by step |]. count_calls. lia. }
  rewrite bind_history.
  destruct (totp_now _ _ _) as [totp |]; cycle 1.
  { eexists. split; [by step |]. count_calls. lia. }
  rewrite send_run.
  destruct (http _ _ _) as [e | r].
  { eexists. split; [by step |]. count_calls. simpl. lia. }
  destruct (is_http_error r).
  { eexists. split; [by step |]. count_calls. simpl. lia. }
  destruct (body r) as [data |]; cycle 1.
  { eexists. split; [by step |]. count_calls. simpl. lia. }
  destruct (login_check data) as [e | [token |]].
  - eexists. split; [by step |]. count_calls. simpl. lia.
  - eexists. split; [step; by rewrite ret_end |]. count_calls. simpl. lia.
  - eexists. split; [by step |]. count_calls. simpl. lia.
Qed.

Lemma on_response_spends w t retries attempt r :
  spends 0 0 (on_response w t retries attempt r).
Proof.
  apply spends_nothing. intros m. unfold on_response.
  destruct (body r) as [data |]; [| eexists; split; [by step | done]].
  destruct (fetch_check data) as [e | [d |]];
    [eexists; split; [by step | done] | | eexists; split; [by step | done]].
  destruct (pd_DataFrame w d); eexists; (split; [by step | done]).
Qed.

Lemma forbidden_details_spends response :
  spends 0 0 (forbidden_details response).
Proof.
  apply spends_nothing. intros m. unfold forbidden_details.
  destruct response as [r |]; [| exists []; by rewrite logged_nil].
  destruct (status_code r =? 403)%Z; [| exists []; by rewrite logged_nil].
  destruct (body r); [by eexists [_] | exists []; by rewrite logged_nil].
Qed.

Lemma refresh_session_spends w retries delay attempt api_obj headers :
  spends 0 (if (attempt <? retries)%nat then 1 else 0)
    (refresh_session w retries delay attempt api_obj headers).
Proof.
  unfold refresh_session. destruct (attempt <? retries)%nat.
  - apply (spends_bind 0 0 0 1); [apply spends_print | intros _].
    apply (spends_bind 0 0 0 1); [apply spends_sleep | intros _].
    apply (spends_bind 0 1 0 0); [apply initialize_api_spends | intros s].
    apply spends_ret.
  - apply spends_ret.
Qed.

Lemma on_http_error_spends w t retries delay attempt api_obj headers response :
  spends 0 (if (attempt <? retries)%nat then 1 else 0)
    (on_http_error w t retries delay attempt api_obj headers response).
Proof.
  unfold on_http_error.
  apply (spends_bind 0 0 0 _); [apply spends_print | intros _].
  apply (spends_bind 0 0 0 _); [apply forbidden_details_spends | intros _].
  apply refresh_session_spends.
Qed.

Lemma send_spends_market w mth url headers payload :
  String.eqb url login_url = false ->
  spends 1 0 (send w (mkRequest mth url headers payload)).
Proof.
  intros Hurl m. eexists [_]. split; [reflexivity |].
  rewrite data_calls_http, login_calls_http.
  unfold is_login. simpl req_url. rewrite Hurl. simpl. lia.
Qed.

(** A fetcher's loop with [todo] iterations left sends at most [todo]
    requests and logs in at most [todo - 1] times. *)
Lemma attempts_spends w mth url payload t retries delay todo attempt api_obj
    headers response :
  String.eqb url login_url = false ->
  (attempt + todo = S retries)%nat ->
  spends todo (todo - 1)
    (attempts w mth url payload t retries delay todo attempt api_obj headers
       response).
Proof.
  intros Hurl. revert attempt api_obj headers response.
  induction todo as [| todo IH];
    intros attempt api_obj headers response Hsum.
  - cbn [attempts]. apply (spends_bind 0 0 0 0); [apply spends_print |].
    intros _. apply spends_ret.
  - cbn [attempts].
    apply (spends_weaken (1 + todo) (0 + (S todo - 1))); [lia | lia |].
    apply spends_bind; [by apply send_spends_market |].
    intros rep.
    assert (spends todo (S todo - 1)
              (do sh <- on_http_error w t retries delay attempt api_obj
                          headers response;
               attempts w mth url payload t retries delay todo (S attempt)
                 sh.1 sh.2 response)) as Hhandler_raised.
    { apply (spends_weaken
               (0 + todo)
               ((if (attempt <? retries)%nat then 1 else 0) + (todo - 1)));
        [lia | | ].
      - destruct (attempt <? retries)%nat eqn:Hlt; [| lia].
        apply Nat.ltb_lt in Hlt. lia.
      - apply spends_bind; [apply on_http_error_spends |].
        intros sh. apply IH. lia. }
    destruct rep as [e | r].
    + destruct e; try exact Hhandler_raised;
        (apply (spends_weaken 0 0); [lia | lia |];
         apply (spends_bind 0 0 0 0); [apply spends_print |];
         intros _; apply spends_ret).
    + destruct (is_http_error r).
      * apply (spends_weaken
                 (0 + todo)
                 ((if (attempt <? retries)%nat then 1 else 0) + (todo - 1)));
          [lia | | ].
        -- destruct (attempt <? retries)%nat eqn:Hlt; [| lia].
           apply Nat.ltb_lt in Hlt. lia.
        -- apply spends_bind; [apply on_http_error_spends |].
           intros sh. apply IH. lia.
      * apply (spends_weaken 0 0); [lia | lia |].
        apply on_response_spends.
Qed.

(** ** What kind of events a program can add *)

Section Adds.

Context (w : World) (P : event -> Prop).

Hypothesis P_sleep : forall n, P (EvSleep n).
Hypothesis P_login : forall req rep, is_login req = true -> P (EvHttp req rep).
Hypothesis P_line :
  forall msg, (forall t, msg <> Fetching t) -> P (EvPrint msg).

(** Solve [adds P c] for a program made of primitives. *)
Ltac adding :=
  repeat first
    [ apply adds_bind; [| intros ?]
    | apply adds_ret | apply adds_exit | apply adds_raise
    | apply adds_history
    | apply adds_emit; first [apply P_sleep | apply P_line; discriminate]
    | apply adds_send; intros ?; apply P_login; reflexivity
    | match goal with
      | |- adds _ (match ?x with _ => _ end) => destruct x
      | |- adds _ (if ?x then _ else _) => destruct x
      end ].

Lemma initialize_api_adds : adds P (initialize_api w).
Proof. unfold initialize_api, print, sleep. adding. Qed.

Lemma collect_adds t df all_data : adds P (collect t df all_data).
Proof. unfold collect, print, sleep. adding. Qed.

Context (mth : method) (url : string)
        (payload : option (list (string * string))) (t : tags)
        (retries delay : nat).

Hypothesis P_request :
  forall headers rep, P (EvHttp (mkRequest mth url headers payload) rep).

Lemma on_response_adds attempt r : adds P (on_response w t retries attempt r).
Proof. unfold on_response, print. adding. Qed.

Lemma on_http_error_adds attempt api_obj headers response :
  adds P (on_http_error w t retries delay attempt api_obj headers response).
Proof.
  unfold on_http_error, forbidden_details, refresh_session.
  apply adds_bind; [unfold print; adding | intros _].
  apply adds_bind; [unfold print; adding | intros _].
  destruct (attempt <? retries)%nat; [| apply adds_ret].
  apply adds_bind; [unfold print; adding | intros _].
  apply adds_bind; [unfold sleep; adding | intros _].
  apply adds_bind; [apply initialize_api_adds | intros s; apply adds_ret].
Qed.

Lemma attempts_adds todo attempt api_obj headers response :
  adds P
    (attempts w mth url payload t retries delay todo attempt api_obj headers
       response).
Proof.
  revert attempt api_obj headers response.
  induction todo as [| todo IH]; intros attempt api_obj headers response.
  - unfold attempts, print. adding.
  - cbn [attempts].
    apply adds_bind; [apply adds_send; intros rep; apply P_request |].
    intros rep. unfold print.
    destruct rep as [e | r]; [destruct e | destruct (is_http_error r)];
      try (apply adds_bind;
           [apply on_http_error_adds | intros ?; apply IH]);
      try apply on_response_adds; adding.
Qed.

End Adds.

Lemma of_call_data_calls mth url payload l :
  Forall (of_call mth url payload) l ->
  Forall (fun req =>
            req_method req = mth /\ req_url req = url /\
            req_json req = payload) (data_calls l).
Proof.
  induction 1 as [| e l He Hl IH]; [constructor |].
  destruct e as [req rep | n | msg]; try exact IH.
  rewrite data_calls_http. destruct (is_login req) eqn:Hreq; [exact IH |].
  constructor; [| exact IH].
  destruct He as [He | He]; [congruence | exact He].
Qed.

Lemma logged_inj m l1 l2 : logged m l1 = logged m l2 -> l1 = l2.
Proof.
  unfold logged. intros [= H]. by apply app_inv_head in H.
Qed.

(** X8: for every world and every state of the run, a call of the POST
    fetcher sends at most [retries + 1] market-data requests and runs the
    authenticator at most [retries] times; all its market-data requests are
    POSTs of the same URL with the same body (only headers can differ);
    and it changes no file. *)
Theorem post_fetch_is_bounded (w : World) (api_obj : Session)
    (endpoint datatype expirytype : string) (retries delay : nat)
    (m : Machine) :
  exists l,
    (fetch_post_data w api_obj endpoint datatype expirytype retries delay m).2
      = logged m l /\
    (length (data_calls l) <= S retries)%nat /\
    (length (login_calls l) <= retries)%nat /\
    Forall (fun req =>
              req_method req = POST /\
              req_url req = market_url endpoint /\
              req_json req =
                Some [("datatype", datatype); ("expirytype", expirytype)])
           (data_calls l).
Proof.
  unfold fetch_post_data.
  destruct (attempts_spends w POST (market_url endpoint)
              (Some [("datatype", datatype); ("expirytype", expirytype)])
              (mkTags datatype expirytype endpoint) retries delay (S retries)
              0 api_obj (fetch_headers w api_obj) None eq_refl eq_refl m)
    as (l & Hl & Hdata & Hlogin).
  destruct (attempts_adds w
              (of_call POST (market_url endpoint)
                 (Some [("datatype", datatype); ("expirytype", expirytype)]))
              ltac:(done) ltac:(by left) ltac:(done)
              POST (market_url endpoint)
              (Some [("datatype", datatype); ("expirytype", expirytype)])
              (mkTags datatype expirytype endpoint) retries delay
              ltac:(by right) (S retries) 0 api_obj (fetch_headers w api_obj)
              None m) as (l' & Hl' & Hcalls).
  rewrite Hl in Hl'. apply logged_inj in Hl' as <-.
  exists l. split; [exact Hl |]. split; [exact Hdata |].
  split; [simpl in Hlogin; lia |].
  by apply of_call_data_calls.
Qed.

(** X9: the same for the GET fetcher: at most [retries + 1] requests, all
    of them GETs of the putCallRatio URL without a body, at most [retries]
    logins, no file changed. *)
Theorem pcr_fetch_is_bounded (w : World) (api_obj : Session)
    (retries delay : nat) (m : Machine) :
  exists l,
    (fetch_pcr_volume w api_obj retries delay m).2 = logged m l /\
    (length (data_calls l) <= S retries)%nat /\
    (length (login_calls l) <= retries)%nat /\
    Forall (fun req =>
              req_method req = GET /\
              req_url req = market_url "putCallRatio" /\
              req_json req = None)
           (data_calls l).
Proof.
  unfold fetch_pcr_volume.
  destruct (attempts_spends w GET (market_url "putCallRatio") None pcr_tags
              retries delay (S retries) 0 api_obj (fetch_headers w api_obj)
              None eq_refl eq_refl m)
    as (l & Hl & Hdata & Hlogin).
  destruct (attempts_adds w
              (of_call GET (market_url "putCallRatio") None)
              ltac:(done) ltac:(by left) ltac:(done)
              GET (market_url "putCallRatio") None pcr_tags retries delay
              ltac:(by right) (S retries) 0 api_obj (fetch_headers w api_obj)
              None m) as (l' & Hl' & Hcalls).
  rewrite Hl in Hl'. apply logged_inj in Hl' as <-.
  exists l. split; [exact Hl |]. split; [exact Hdata |].
  split; [simpl in Hlogin; lia |].
  by apply of_call_data_calls.
Qed.

(** ** The whole run *)

Lemma main_from_collected w m :
  main w m =
  bind (collected w)
    (fun all_data => combine_and_save all_data;; print Completed) m.
Proof.
  unfold main, collected. rewrite bind_assoc.
  apply bind_ext. intros api_obj m1. rewrite bind_assoc. done.
Qed.

Lemma collect_spends t df all_data : spends 0 0 (collect t df all_data).
Proof.
  apply spends_nothing. intros m. unfold collect.
  destruct (df_empty df); cbn [negb]; eexists; (split; [by step | done]).
Qed.

Lemma post_call_spends w api_obj endpoint expiry datatype all_data :
  spends 3 2 (post_call w api_obj endpoint expiry datatype all_data).
Proof.
  unfold post_call, fetch_post_data.
  apply (spends_bind 0 0 3 2); [apply spends_print | intros _].
  apply (spends_bind 3 2 0 0);
    [by apply (attempts_spends w POST (market_url endpoint)) |].
  intros df. apply collect_spends.
Qed.

Lemma pcr_call_spends w api_obj all_data :
  spends 3 2 (pcr_call w api_obj all_data).
Proof.
  unfold pcr_call, fetch_pcr_volume.
  apply (spends_bind 0 0 3 2); [apply spends_print | intros _].
  apply (spends_bind 3 2 0 0);
    [by apply (attempts_spends w GET (market_url "putCallRatio")) |].
  intros df. apply collect_spends.
Qed.

Lemma collected_spends w : spends 75 51 (collected w).
Proof.
  unfold collected.
  apply (spends_bind 0 1 75 50); [apply initialize_api_spends |].
  intros api_obj.
  apply (spends_bind 72 48 3 2); [| intros all_data; apply pcr_call_spends].
  apply (spends_same 72 48
           (for_each catalog
              (fun t =>
                 post_call w api_obj (tg_endpoint t) (tg_expirytype t)
                   (tg_datatype t)) [])).
  { intros m. symmetry. apply fetch_gainers_oi_catalog. }
  apply (spends_for_each 3 2 catalog). intros t all_data.
  apply post_call_spends.
Qed.

Lemma saving_lines all_data m :
  exists l,
    trace ((combine_and_save all_data;; print Completed) m).2 = trace m ++ l /\
    network_calls l = [] /\ announced l = [].
Proof.
  destruct all_data as [| df rest].
  - exists [EvPrint NoDataToSave; EvPrint Completed].
    split; [| done]. unfold combine_and_save. step. rewrite print_end.
    by step.
  - exists [EvPrint (Saved OUTPUT_FILE); EvPrint Completed].
    split; [| done]. by rewrite combine_and_save_some.
Qed.

(** X10: whatever the world does, a run of the program sends at most 75
    market-data requests (three per call) and at most 51 login requests
    (the start-up login and two per call). *)
Theorem main_is_bounded (w : World) (m : Machine) :
  exists l,
    trace (main w m).2 = trace m ++ l /\
    (length (data_calls l) <= 75)%nat /\
    (length (login_calls l) <= 51)%nat.
Proof.
  rewrite main_from_collected.
  destruct (collected_spends w m) as (l & Hl & Hdata & Hlogin).
  unfold bind. destruct (collected w m) as [[all_data | | e] m1];
    simpl in Hl; subst m1; try by exists l.
  destruct (saving_lines all_data (logged m l)) as (l' & Hl' & Hnone & _).
  exists (l ++ l'). split.
  { etransitivity; [exact Hl' |]. by rewrite trace_logged, <- app_assoc. }
  assert (data_calls l' = [] /\ login_calls l' = []) as [Hd' Hg'].
  { unfold data_calls, login_calls. by rewrite Hnone. }
  rewrite data_calls_app, login_calls_app, !length_app, Hd', Hg'.
  simpl. lia.
Qed.

(** ** What is written *)

Lemma NoDup_add_column c cols : NoDup cols -> NoDup (add_column c cols).
Proof.
  intros Hcols. unfold add_column.
  destruct (decide (c ∈ cols)) as [Hin | Hout]; [done |].
  apply NoDup_app. split; [done |]. split; [| apply NoDup_singleton].
  intros x Hx Hx'. apply list_elem_of_singleton in Hx'. by subst.
Qed.

Lemma NoDup_add_columns cs cols : NoDup cols -> NoDup (add_columns cs cols).
Proof.
  unfold add_columns. revert cols.
  induction cs as [| c cs IH]; intros cols Hcols; [done |].
  simpl. apply IH. by apply NoDup_add_column.
Qed.

Lemma NoDup_columns_concat frames : NoDup (columns (pd_concat frames)).
Proof.
  unfold pd_concat. simpl.
  assert (forall acc, NoDup acc ->
            NoDup (foldl (fun acc df => add_columns (columns df) acc) acc
                     frames)) as Hfold.
  { induction frames as [| df frames IH]; intros acc Hacc; [done |].
    simpl. apply IH. by apply NoDup_add_columns. }
  apply Hfold. constructor.
Qed.

Lemma concat_not_empty df frames :
  df_empty df = false -> df_empty (pd_concat (df :: frames)) = false.
Proof.
  intros Hdf. unfold df_empty in *.
  destruct (columns df) as [| c cs] eqn:Hcols; [done |].
  destruct (rows df) as [| r rs] eqn:Hrows; [done |].
  assert (c ∈ columns (pd_concat (df :: frames))) as Hc.
  { apply elem_of_columns_concat. exists df. split; [by left |].
    rewrite Hcols. by left. }
  destruct (columns (pd_concat (df :: frames))) as [| c' cs'].
  { by apply elem_of_nil in Hc. }
  simpl. rewrite Hrows. done.
Qed.

(** The frames the first part hands to the saving step are non-empty, and
    the first part changes no file. *)
Lemma collected_frames w m all_data m' :
  collected w m = (Ret all_data, m') ->
  Forall (fun df => df_empty df = false) all_data /\ files m' = files m.
Proof.
  intros Hrun. split.
  - unfold collected in Hrun. unfold bind at 1 in Hrun.
    destruct (initialize_api w m) as [[api_obj | | e] m1];
      [| discriminate | discriminate].
    pose proof (collected_are_the_non_empty w api_obj m1) as [_ Hr].
    change (bind (fetch_gainers_oi w api_obj []) (pcr_call w api_obj) m1)
      with ((do all_data <- fetch_gainers_oi w api_obj [];
             pcr_call w api_obj all_data) m1) in Hr.
    rewrite Hrun in Hr. simpl in Hr.
    destruct (returned_frames w api_obj m1).1 as [returned | | ]; try done.
    subst. apply Forall_forall. intros df Hdf.
    apply list_elem_of_filter in Hdf. tauto.
  - destruct (collected_spends w m) as (l & Hl & _).
    rewrite Hrun in Hl. simpl in Hl. by subst.
Qed.

(** X11: whatever the world does, the only file a run can change is the
    output file, and it changes it only in a run that ends normally; what
    it then holds is a frame with at least one row and one column, and with
    no column label twice.  A run that is cut short (by a failed
    re-login or an exception) leaves every file as it was. *)
Theorem main_writes_one_complete_file (w : World) (m : Machine) :
  (forall name, name <> OUTPUT_FILE ->
     files (main w m).2 !! name = files m !! name) /\
  ((main w m).1 <> Ret tt -> files (main w m).2 = files m) /\
  (forall out,
     files (main w m).2 !! OUTPUT_FILE = Some out ->
     files m !! OUTPUT_FILE = Some out \/
     (df_empty out = false /\ NoDup (columns out))).
Proof.
  assert (files (main w m).2 = files m \/
          exists df rest,
            (main w m).1 = Ret tt /\ df_empty df = false /\
            files (main w m).2 =
              <[OUTPUT_FILE := pd_concat (df :: rest)]> (files m)) as Hcases.
  { rewrite main_from_collected.
    destruct (collected w m) as [[all_data | | e] m1] eqn:Hrun.
    - rewrite (bind_Ret _ _ _ _ _ Hrun).
      destruct (collected_frames w m all_data m1 Hrun) as [Hall Hfiles].
      destruct all_data as [| df rest].
      + left. rewrite <- Hfiles. reflexivity.
      + right. exists df, rest.
        rewrite combine_and_save_some by done. simpl. rewrite Hfiles.
        split; [done |]. split; [| done]. by inversion Hall.
    - rewrite (bind_Exit _ _ _ _ Hrun).
      left. destruct (collected_spends w m) as (l & Hl & _).
      rewrite Hrun in Hl. simpl in *. by subst.
    - rewrite (bind_Raise _ _ _ _ _ Hrun).
      left. destruct (collected_spends w m) as (l & Hl & _).
      rewrite Hrun in Hl. simpl in *. by subst. }
  split; [| split].
  - intros name Hname.
    destruct Hcases as [-> | (df & rest & _ & _ & ->)]; [done |].
    by rewrite lookup_insert_ne.
  - intros Hnot. destruct Hcases as [H | (df & rest & Hret & _)]; done.
  - intros out Hout.
    destruct Hcases as [H | (df & rest & _ & Hdf & H)]; rewrite H in Hout.
    + by left.
    + right. rewrite lookup_insert_eq in Hout. injection Hout as <-.
      split; [by apply concat_not_empty | apply NoDup_columns_concat].
Qed.

(** ** The order of the calls *)

Lemma quiet_line msg : (forall t, msg <> Fetching t) -> quiet (EvPrint msg).
Proof. intros H. destruct msg; try exact I. by destruct (H t). Qed.

Lemma announced_app t1 t2 : announced (t1 ++ t2) = announced t1 ++ announced t2.
Proof. apply omap_app. Qed.

Lemma announced_quiet l : Forall quiet l -> announced l = [].
Proof.
  induction 1 as [| e l He Hl IH]; [done |].
  destruct e as [req rep | n | msg]; try exact IH.
  destruct msg; try exact IH. destruct He.
Qed.

Lemma fetch_and_collect_quiet w mth url payload t retries delay todo attempt
    api_obj headers response all_data :
  adds quiet
    (do df <- attempts w mth url payload t retries delay todo attempt api_obj
                headers response;
     collect t df all_data).
Proof.
  apply adds_bind.
  - apply attempts_adds; try apply quiet_line; by intros.
  - intros df. apply collect_adds; try apply quiet_line; by intros.
Qed.

Lemma post_call_announces w api_obj t all_data m :
  exists l,
    (post_call w api_obj (tg_endpoint t) (tg_expirytype t) (tg_datatype t)
       all_data m).2 = logged m (EvPrint (Fetching t) :: l) /\
    Forall quiet l.
Proof.
  destruct t as [datatype expiry endpoint]. simpl.
  unfold post_call, fetch_post_data. rewrite print_run.
  destruct (fetch_and_collect_quiet w POST (market_url endpoint)
              (Some [("datatype", datatype); ("expirytype", expiry)])
              (mkTags datatype expiry endpoint) 2 2 3 0 api_obj
              (fetch_headers w api_obj) None all_data
              (logged m [EvPrint (Fetching (mkTags datatype expiry endpoint))]))
    as (l & Hl & Hquiet).
  exists l. split; [| done]. etransitivity; [exact Hl |].
  by rewrite logged_app.
Qed.

Lemma pcr_call_announces w api_obj all_data m :
  exists l,
    (pcr_call w api_obj all_data m).2
      = logged m (EvPrint (Fetching pcr_tags) :: l) /\
    Forall quiet l.
Proof.
  unfold pcr_call, fetch_pcr_volume. rewrite print_run.
  destruct (fetch_and_collect_quiet w GET (market_url "putCallRatio") None
              pcr_tags 2 2 3 0 api_obj (fetch_headers w api_obj) None all_data
              (logged m [EvPrint (Fetching pcr_tags)]))
    as (l & Hl & Hquiet).
  exists l. split; [| done]. etransitivity; [exact Hl |].
  by rewrite logged_app.
Qed.

Lemma calls_announced w api_obj ts all_data m :
  let run :=
    for_each ts
      (fun t =>
         post_call w api_obj (tg_endpoint t) (tg_expirytype t) (tg_datatype t))
      all_data m in
  exists l,
    run.2 = logged m l /\
    announced l `prefix_of` ts /\
    (forall a, run.1 = Ret a -> announced l = ts).
Proof.
  revert all_data m. induction ts as [| t ts IH]; intros all_data m run.
  - exists []. unfold run. simpl. rewrite logged_nil.
    split; [done |]. split; [apply prefix_nil | done].
  - unfold run. cbn [for_each].
    destruct (post_call_announces w api_obj t all_data m)
      as (l1 & Hl1 & Hquiet).
    unfold bind.
    destruct (post_call w api_obj (tg_endpoint t) (tg_expirytype t)
                (tg_datatype t) all_data m) as [[a | | e] m1];
      simpl in Hl1; subst m1.
    + destruct (IH a (logged m (EvPrint (Fetching t) :: l1)))
        as (l2 & Hl2 & Hpre & Hall).
      exists ((EvPrint (Fetching t) :: l1) ++ l2).
      split; [by rewrite Hl2, logged_app |].
      rewrite announced_app. change (announced (EvPrint (Fetching t) :: l1))
        with (t :: announced l1).
      rewrite (announced_quiet l1 Hquiet). simpl.
      split; [by apply prefix_cons |].
      intros a' Ha'. f_equal. by apply (Hall a').
    + exists (EvPrint (Fetching t) :: l1). split; [done |].
      change (announced (EvPrint (Fetching t) :: l1))
        with (t :: announced l1).
      rewrite (announced_quiet l1 Hquiet).
      split; [apply prefix_cons, prefix_nil | done].
    + exists (EvPrint (Fetching t) :: l1). split; [done |].
      change (announced (EvPrint (Fetching t) :: l1))
        with (t :: announced l1).
      rewrite (announced_quiet l1 Hquiet).
      split; [apply prefix_cons, prefix_nil | done].
Qed.

Lemma collected_announced w m :
  exists l,
    (collected w m).2 = logged m l /\
    announced l `prefix_of` catalog ++ [pcr_tags] /\
    (forall a, (collected w m).1 = Ret a ->
               announced l = catalog ++ [pcr_tags]).
Proof.
  unfold collected.
  assert (adds quiet (initialize_api w)) as Hinit.
  { apply initialize_api_adds; [by intros | apply quiet_line]. }
  destruct (Hinit m) as (l0 & Hl0 & Hq0).
  pose proof (announced_quiet l0 Hq0) as Ha0.
  destruct (initialize_api w m) as [[api_obj | | e] m1] eqn:Hlogin;
    simpl in Hl0; subst m1.
  - rewrite (bind_Ret _ _ _ _ _ Hlogin).
    set (m1 := logged m l0).
    destruct (calls_announced w api_obj catalog [] m1)
      as (l1 & Hl1 & Hpre & Hall).
    rewrite <- fetch_gainers_oi_catalog in Hl1, Hall.
    destruct (fetch_gainers_oi w api_obj [] m1) as [[all_data | | e] m2]
      eqn:Hloop; simpl in Hl1, Hall; subst m2.
    + rewrite (bind_Ret _ _ _ _ _ Hloop).
      destruct (pcr_call_announces w api_obj all_data (logged m1 l1))
        as (l2 & Hl2 & Hq2).
      exists (l0 ++ l1 ++ EvPrint (Fetching pcr_tags) :: l2).
      split; [by rewrite Hl2; unfold m1; rewrite !logged_app |].
      rewrite !announced_app, Ha0, (Hall all_data eq_refl).
      change (announced (EvPrint (Fetching pcr_tags) :: l2))
        with (pcr_tags :: announced l2).
      rewrite (announced_quiet l2 Hq2). done.
    + rewrite (bind_Exit _ _ _ _ Hloop).
      exists (l0 ++ l1). split; [by unfold m1; rewrite logged_app |].
      rewrite announced_app, Ha0. split; [by apply prefix_app_r | done].
    + rewrite (bind_Raise _ _ _ _ _ Hloop).
      exists (l0 ++ l1). split; [by unfold m1; rewrite logged_app |].
      rewrite announced_app, Ha0. split; [by apply prefix_app_r | done].
  - rewrite (bind_Exit _ _ _ _ Hlogin). exists l0. rewrite Ha0.
    split; [done |]. split; [apply prefix_nil | done].
  - rewrite (bind_Raise _ _ _ _ _ Hlogin). exists l0. rewrite Ha0.
    split; [done |]. split; [apply prefix_nil | done].
Qed.

(** X12: whatever the world does, the calls a run announces are, in order,
    a prefix of the fixed sequence (the 24 combinations of the catalog,
    then PCR volume): no call is skipped, repeated or reordered because of
    what earlier calls returned; and a run that ends normally has announced
    all 25. *)
Theorem calls_follow_the_catalog (w : World) (m : Machine) :
  exists l,
    trace (main w m).2 = trace m ++ l /\
    announced l `prefix_of` catalog ++ [pcr_tags] /\
    ((main w m).1 = Ret tt -> announced l = catalog ++ [pcr_tags]).
Proof.
  rewrite main_from_collected.
  destruct (collected_announced w m) as (l & Hl & Hpre & Hall).
  destruct (collected w m) as [[all_data | | e] m1] eqn:Hrun;
    simpl in Hl, Hall; subst m1.
  - rewrite (bind_Ret _ _ _ _ _ Hrun).
    destruct (saving_lines all_data (logged m l)) as (l' & Hl' & _ & Hnone).
    exists (l ++ l'). split.
    { rewrite Hl', trace_logged, <- app_assoc. done. }
    rewrite announced_app, Hnone, app_nil_r.
    split; [done |]. intros _. by apply (Hall all_data).
  - rewrite (bind_Exit _ _ _ _ Hrun). exists l. by repeat split.
  - rewrite (bind_Raise _ _ _ _ _ Hrun). exists l. by repeat split.
Qed.

(** ** Examples for the further properties *)

Lemma login_yields_token_witness :
  let w := mock full_env (fun _ => login_reply 200 "T1")
             (fun _ _ => data_reply []) in
  exists s m',
    initialize_api w start = (Ret s, m') /\
    access_token s = JStr "T1" /\
    smart_api_key s = "key" /\
    network_calls (trace m') = [login_request w [] "492039"].
Proof.
  intros w.
  destruct (login_yields_token w start "key" "A123" "1234" "JBSWY3DPEHPK3PXP"
              "492039"
              (mkResponse 200
                 (Some (JObj [("status", JBool true);
                              ("message", JStr "SUCCESS");
                              ("data", JObj [("jwtToken", JStr "T1")])])))
              [("status", JBool true); ("message", JStr "SUCCESS");
               ("data", JObj [("jwtToken", JStr "T1")])]
              [("jwtToken", JStr "T1")] (JStr "T1"))
    as (s & Hrun & Htok & Hkey & _); try reflexivity; try discriminate.
  exists s. eexists. split; [exact Hrun |]. split; [exact Htok |].
  split; [exact Hkey | reflexivity].
Defined.

Lemma empty_config_value_is_missing_witness :
  let w := mock (env_of [("API_KEY", "key"); ("USER_NAME", "A123");
                         ("MPIN", ""); ("TOTP_SECRET", "JBSWY3DPEHPK3PXP")])
             (fun _ => login_reply 200 "T1") (fun _ _ => data_reply []) in
  initialize_api w start = (Exit, logged start [EvPrint MissingCredentials]).
Proof.
  intros w. apply (empty_config_value_is_missing w start "MPIN").
  - unfold required. set_solver.
  - reflexivity.
Defined.

Lemma pcr_fetch_rows_tagged_witness :
  let w := mock full_env (fun _ => login_reply 200 "T1")
             (fun _ _ => data_reply [[("pcr", JNum 1)]; [("pcr", JNum 2)]]) in
  exists df m',
    fetch_pcr_volume w (a_session "T1") 2 2 start = (Ret df, m') /\
    length (rows df) = 2%nat /\
    Forall (fun row =>
              row !! "DataType" = Some (JStr "PCR Volume") /\
              row !! "ExpiryType" = Some (JStr "N/A") /\
              row !! "Endpoint" = Some (JStr "putCallRatio"))
           (rows df).
Proof.
  intros w.
  destruct (pcr_fetch_rows_tagged w (a_session "T1") 2 2 2 0
              (fetch_headers w (a_session "T1")) None start
              (mkResponse 200
                 (Some (JObj [("status", JBool true);
                              ("message", JStr "SUCCESS");
                              ("data", JArr (JObj <$>
                                 [[("pcr", JNum 1)]; [("pcr", JNum 2)]]))])))
              [("status", JBool true); ("message", JStr "SUCCESS");
               ("data", JArr (JObj <$> [[("pcr", JNum 1)]; [("pcr", JNum 2)]]))]
              [[("pcr", JNum 1)]; [("pcr", JNum 2)]])
    as (df & Hrun & Hlen & _ & Hrows); try reflexivity; try discriminate.
  exists df. eexists. split; [exact Hrun |]. split; [exact Hlen | exact Hrows].
Defined.

Lemma unusable_body_abandons_witness :
  let w := mock full_env (fun _ => login_reply 200 "T1")
             (fun _ _ => ReplyResponse (mkResponse 200 (Some (JArr [])))) in
  fetch_pcr_volume w (a_session "T1") 2 2 start =
  (Ret empty_frame,
   logged start
     [EvHttp (mkRequest GET (market_url "putCallRatio")
                (fetch_headers w (a_session "T1")) None)
        (ReplyResponse (mkResponse 200 (Some (JArr []))));
      EvPrint (ResponseDump pcr_tags (JArr []));
      EvPrint (FetchError pcr_tags 1 3 AttributeError)]).
Proof.
  intros w.
  apply (proj2 (unusable_body_abandons w GET (market_url "putCallRatio") None
                  pcr_tags 2 2 2 0 (a_session "T1")
                  (fetch_headers w (a_session "T1")) None start
                  (mkResponse 200 (Some (JArr []))) eq_refl eq_refl)
           (JArr []));
    reflexivity.
Defined.

Lemma rejected_data_abandons_witness :
  let body := [("status", JBool true); ("data", JStr "maintenance")] in
  let w := mock full_env (fun _ => login_reply 200 "T1")
             (fun _ _ => ReplyResponse (mkResponse 200 (Some (JObj body)))) in
  fetch_pcr_volume w (a_session "T1") 2 2 start =
  (Ret empty_frame,
   logged start
     [EvHttp (mkRequest GET (market_url "putCallRatio")
                (fetch_headers w (a_session "T1")) None)
        (ReplyResponse (mkResponse 200 (Some (JObj body))));
      EvPrint (ResponseDump pcr_tags (JObj body));
      EvPrint (Fetched pcr_tags);
      EvPrint (FetchError pcr_tags 1 3 ValueError)]).
Proof.
  intros body w.
  apply (rejected_data_abandons w GET (market_url "putCallRatio") None
           pcr_tags 2 2 2 0 (a_session "T1")
           (fetch_headers w (a_session "T1")) None start
           (mkResponse 200 (Some (JObj body))) body (JStr "maintenance"));
    reflexivity.
Defined.

Lemma last_http_error_gives_up_witness :
  let w := mock full_env (fun _ => login_reply 200 "T1")
             (fun _ _ => error_reply 503 None) in
  fetch_post_data w (a_session "T1") "OIBuildup" "Short Covering" "FAR" 0 2
    start =
  (Ret empty_frame,
   logged start
     [EvHttp (post_request (fetch_headers w (a_session "T1")) "OIBuildup"
                "Short Covering" "FAR") (error_reply 503 None);
      EvPrint (HttpErrorLine (mkTags "Short Covering" "FAR" "OIBuildup") 1 1);
      EvPrint (FetchFailed (mkTags "Short Covering" "FAR" "OIBuildup") 1)]).
Proof.
  intros w.
  apply (last_http_error_gives_up w POST (market_url "OIBuildup")
           (Some [("datatype", "Short Covering"); ("expirytype", "FAR")])
           (mkTags "Short Covering" "FAR" "OIBuildup") 0 2 0 (a_session "T1")
           (fetch_headers w (a_session "T1")) None start
           (mkResponse 503 None));
    (lia || reflexivity).
Defined.

Lemma forbidden_without_json_raises_witness :
  let w := mock full_env (fun _ => login_reply 200 "T1")
             (fun _ _ => error_reply 403 None) in
  fetch_pcr_volume w (a_session "T1") 2 2 start =
  (Raise JSONDecodeError,
   logged start
     [EvHttp (mkRequest GET (market_url "putCallRatio")
                (fetch_headers w (a_session "T1")) None)
        (error_reply 403 None);
      EvPrint (HttpErrorLine pcr_tags 1 3)]).
Proof.
  intros w.
  apply (forbidden_without_json_raises w GET (market_url "putCallRatio") None
           pcr_tags 2 2 2 0 (a_session "T1")
           (fetch_headers w (a_session "T1")) None start
           (mkResponse 403 None));
    reflexivity.
Defined.

(** ** The authenticator is single-shot *)

(** X13: whatever the world does, one run of the authenticator sends at
    most one request, to the login URL (a failed login is not retried),
    never a market-data request, changes no file, and ends by returning a
    session or by ending the process, never with an exception. *)
Theorem login_is_single_shot (w : World) (m : Machine) :
  exists l,
    (initialize_api w m).2 = logged m l /\
    data_calls l = [] /\
    (length (login_calls l) <= 1)%nat /\
    forall e, (initialize_api w m).1 <> Raise e.
Proof.
  destruct (initialize_api_spends w m) as (l & Hl & Hdata & Hlogin).
  exists l. split; [exact Hl |]. split.
  { destruct (data_calls l); [done | simpl in Hdata; lia]. }
  split; [exact Hlogin |].
  intros e He.
  destruct (authenticator_returns_or_fails w m) as [(s & m' & Hrun) | Hfail].
  - rewrite Hrun in He. discriminate.
  - destruct (authenticator_fails w m Hfail) as (l' & msg & _ & _ & Hrun).
    rewrite Hrun in He. discriminate.
Qed.

(** ** Every written row is labelled *)

Lemma returns_ret {A} (P : A -> Prop) a : P a -> returns P (ret a).
Proof. intros Ha m. exact Ha. Qed.

Lemma returns_bind {A B} (Q : A -> Prop) (P : B -> Prop) (c : M A)
    (k : A -> M B) :
  returns Q c -> (forall a, Q a -> returns P (k a)) -> returns P (bind c k).
Proof.
  intros Hc Hk m. specialize (Hc m). unfold bind.
  destruct (c m) as [[a | | e] m1]; simpl in *; [| done | done].
  by apply Hk.
Qed.

Lemma returns_any {A} (c : M A) : returns (fun _ => True) c.
Proof. intros m. by destruct (c m).1. Qed.

Lemma returns_for_each {A S} (I : S -> Prop) (xs : list A)
    (f : A -> S -> M S) s :
  (forall x s', x ∈ xs -> I s' -> returns I (f x s')) ->
  I s -> returns I (for_each xs f s).
Proof.
  revert s. induction xs as [| x xs IH]; intros s Hf Hs.
  - by apply returns_ret.
  - simpl. apply (returns_bind I).
    + apply Hf; [by left | done].
    + intros s' Hs'. apply IH; [| done].
      intros y s'' Hy. apply Hf. by right.
Qed.

(** What a fetcher returns is the empty frame or a tagged frame. *)
Lemma attempts_returns w mth url payload t retries delay todo attempt api_obj
    headers response :
  returns (fun df => df = empty_frame \/ exists df0, df = tag t df0)
    (attempts w mth url payload t retries delay todo attempt api_obj headers
       response).
Proof.
  revert attempt api_obj headers response.
  induction todo as [| todo IH]; intros attempt api_obj headers response.
  - cbn [attempts]. apply (returns_bind (fun _ => True));
      [apply returns_any | intros _ _]. apply returns_ret. by left.
  - cbn [attempts]. apply (returns_bind (fun _ => True));
      [apply returns_any | intros rep _].
    assert (forall e,
              returns (fun df => df = empty_frame \/
                                 exists df0, df = tag t df0)
                (print (FetchError t (S attempt) (S retries) e);;
                 ret empty_frame)) as Hgive_up.
    { intros e. apply (returns_bind (fun _ => True));
        [apply returns_any | intros _ _]. apply returns_ret. by left. }
    destruct rep as [e | r].
    + destruct e; try apply Hgive_up.
      apply (returns_bind (fun _ => True)); [apply returns_any |].
      intros sh _. apply IH.
    + destruct (is_http_error r).
      * apply (returns_bind (fun _ => True)); [apply returns_any |].
        intros sh _. apply IH.
      * unfold on_response.
        destruct (body r) as [data |]; [| apply Hgive_up].
        apply (returns_bind (fun _ => True));
          [apply returns_any | intros _ _].
        destruct (fetch_check data) as [e | [d |]]; [apply Hgive_up | |].
        -- apply (returns_bind (fun _ => True));
             [apply returns_any | intros _ _].
           destruct (pd_DataFrame w d) as [df |]; [| apply Hgive_up].
           apply returns_ret. right. by exists df.
        -- apply (returns_bind (fun _ => True));
             [apply returns_any | intros _ _]. apply returns_ret. by left.
Qed.

Lemma collect_returns ts t df all_data :
  t ∈ ts ->
  df = empty_frame \/ (exists df0, df = tag t df0) ->
  Forall (labelled_by ts) all_data ->
  returns (Forall (labelled_by ts)) (collect t df all_data).
Proof.
  intros Ht Hdf Hall. unfold collect.
  apply (returns_bind (Forall (labelled_by ts))).
  - destruct (df_empty df) eqn:Hempty; cbn [negb].
    + apply (returns_bind (fun _ => True));
        [apply returns_any | intros _ _]. by apply returns_ret.
    + apply returns_ret. apply Forall_app. split; [done |].
      constructor; [| constructor].
      destruct Hdf as [-> | (df0 & ->)]; [discriminate |].
      by exists t, df0.
  - intros all_data' Hall'.
    apply (returns_bind (fun _ => True)); [apply returns_any | intros _ _].
    by apply returns_ret.
Qed.

Lemma collected_returns w :
  returns (Forall (labelled_by (catalog ++ [pcr_tags]))) (collected w).
Proof.
  set (ts := catalog ++ [pcr_tags]).
  unfold collected.
  apply (returns_bind (fun _ => True)); [apply returns_any |].
  intros api_obj _.
  apply (returns_bind (Forall (labelled_by ts))).
  - intros m. rewrite fetch_gainers_oi_catalog. revert m.
    apply (returns_for_each (Forall (labelled_by ts))); [| constructor].
    intros t all_data Ht Hall. unfold post_call, fetch_post_data.
    apply (returns_bind (fun _ => True)); [apply returns_any | intros _ _].
    destruct t as [datatype expiry endpoint].
    cbn [tg_endpoint tg_datatype tg_expirytype].
    eapply returns_bind; [apply attempts_returns |].
    intros df Hdf. apply collect_returns; [| done | done].
    unfold ts. apply elem_of_app. by left.
  - intros all_data Hall. unfold pcr_call, fetch_pcr_volume.
    apply (returns_bind (fun _ => True)); [apply returns_any | intros _ _].
    eapply returns_bind; [apply attempts_returns |].
    intros df Hdf. apply collect_returns; [| done | done].
    unfold ts. apply elem_of_app. right. by left.
Qed.

Lemma main_file_cases w m :
  files (main w m).2 = files m \/
  exists df rest m1,
    collected w m = (Ret (df :: rest), m1) /\
    files (main w m).2 = <[OUTPUT_FILE := pd_concat (df :: rest)]> (files m).
Proof.
  rewrite main_from_collected.
  destruct (collected w m) as [[all_data | | e] m1] eqn:Hrun.
  - rewrite (bind_Ret _ _ _ _ _ Hrun).
    destruct (collected_frames w m all_data m1 Hrun) as [_ Hfiles].
    destruct all_data as [| df rest].
    + left. rewrite <- Hfiles. reflexivity.
    + right. exists df, rest, m1. split; [done |].
      rewrite combine_and_save_some by done. simpl. by rewrite Hfiles.
  - rewrite (bind_Exit _ _ _ _ Hrun).
    left. destruct (collected_spends w m) as (l & Hl & _).
    rewrite Hrun in Hl. simpl in *. by subst.
  - rewrite (bind_Raise _ _ _ _ _ Hrun).
    left. destruct (collected_spends w m) as (l & Hl & _).
    rewrite Hrun in Hl. simpl in *. by subst.
Qed.

(** X14: whatever the world does and whatever the served records contain,
    a frame the run writes has the three tag columns, and each of its rows
    carries in them the datatype, expiry type and endpoint of one of the
    25 calls (a served field of the same name is overwritten). *)
Theorem written_rows_are_labelled (w : World) (m : Machine) (out : DataFrame) :
  files (main w m).2 !! OUTPUT_FILE = Some out ->
  files m !! OUTPUT_FILE = Some out \/
  ((forall c, c ∈ the_tag_columns -> c ∈ columns out) /\
   Forall (fun row =>
             exists t,
               t ∈ catalog ++ [pcr_tags] /\
               row !! "DataType" = Some (JStr (tg_datatype t)) /\
               row !! "ExpiryType" = Some (JStr (tg_expirytype t)) /\
               row !! "Endpoint" = Some (JStr (tg_endpoint t)))
          (rows out)).
Proof.
  intros Hout.
  destruct (main_file_cases w m) as [H | (df & rest & m1 & Hrun & H)];
    rewrite H in Hout; [by left | right].
  rewrite lookup_insert_eq in Hout. injection Hout as <-.
  pose proof (collected_returns w m) as Hall. rewrite Hrun in Hall.
  simpl in Hall. split.
  - intros c Hc. apply elem_of_columns_concat. exists df.
    split; [by left |].
    apply Forall_cons in Hall as [(t & df0 & _ & ->) _].
    apply elem_of_columns_tag. by left.
  - unfold pd_concat. cbn [rows]. apply Forall_concat, Forall_fmap.
    eapply Forall_impl; [exact Hall |].
    intros df' (t & df0 & Ht & ->). simpl.
    eapply Forall_impl; [apply (tag_rows_labelled t df0) |].
    intros row Hrow. by exists t.
Qed.

Lemma written_rows_are_labelled_witness :
  let w := mock full_env (fun _ => login_reply 200 "T1")
             (fun n _ => if Nat.eqb n 24
                         then data_reply [[("Endpoint", JStr "served")]]
                         else data_reply []) in
  exists out,
    files (main w start).2 !! OUTPUT_FILE = Some out /\
    columns out = ["Endpoint"; "DataType"; "ExpiryType"] /\
    Forall (fun row =>
              exists t,
                t ∈ catalog ++ [pcr_tags] /\
                row !! "DataType" = Some (JStr (tg_datatype t)) /\
                row !! "ExpiryType" = Some (JStr (tg_expirytype t)) /\
                row !! "Endpoint" = Some (JStr (tg_endpoint t)))
           (rows out).
Proof.
  intros w.
  set (out := default empty_frame (files (main w start).2 !! OUTPUT_FILE)).
  assert (files (main w start).2 !! OUTPUT_FILE = Some out) as Hout
    by (vm_compute; reflexivity).
  exists out. split; [exact Hout |]. split; [vm_compute; reflexivity |].
  destruct (written_rows_are_labelled w start out Hout) as [Hold | [_ Hrows]].
  - discriminate.
  - exact Hrows.
Defined.

(** ** Missing configuration, for the file as a whole *)

(** C4 (as amended): when one of the four required configuration values is
    missing, whatever importing the libraries did, the run attempts no
    request after the imports: its requests are those of the imports, and
    when the imports return, the program prints the missing-credentials
    line and ends the process there. *)
Theorem missing_config_stops_after_imports (importing : M unit) (w : World)
    (m : Machine) (k : string) :
  k ∈ required -> getenv w k = None ->
  network_calls (trace (script importing w m).2)
    = network_calls (trace (importing m).2) /\
  (forall m1,
     importing m = (Ret tt, m1) ->
     script importing w m = (Exit, logged m1 [EvPrint MissingCredentials])).
Proof.
  intros Hk Hnone.
  assert (forall m1,
            importing m = (Ret tt, m1) ->
            script importing w m =
            (Exit, logged m1 [EvPrint MissingCredentials])) as Hstop.
  { intros m1 Himport. unfold script. erewrite bind_Ret by exact Himport.
    apply (missing_config_no_network w m1 k Hk Hnone). }
  split; [| exact Hstop].
  destruct (importing m) as [[[] | | e] m1] eqn:Himport.
  - rewrite (Hstop m1 eq_refl). unfold logged. cbn [trace snd].
    rewrite network_calls_app. simpl. by rewrite app_nil_r.
  - unfold script. by erewrite bind_Exit.
  - unfold script. by erewrite bind_Raise.
Qed.

Lemma missing_config_stops_after_imports_witness :
  let w := mock (env_of [("API_KEY", "key"); ("USER_NAME", "A123");
                         ("TOTP_SECRET", "JBSWY3DPEHPK3PXP")])
             (fun _ => login_reply 200 "T1")
             (fun _ _ => ReplyRaise (RequestException "ConnectionError")) in
  let lookup := mkRequest GET "https://api.ipify.org" ∅ None in
  network_calls (trace (script (public_ip_lookup w) w start).2) = [lookup] /\
  script (public_ip_lookup w) w start =
  (Exit,
   logged start
     [EvHttp lookup (ReplyRaise (RequestException "ConnectionError"));
      EvPrint MissingCredentials]).
Proof.
  intros w lookup.
  assert ("MPIN" ∈ required) as Hin by (unfold required; set_solver).
  assert (getenv w "MPIN" = None) as Hnone by reflexivity.
  destruct (missing_config_stops_after_imports (public_ip_lookup w) w start
              "MPIN" Hin Hnone) as [Hcalls Hstop].
  split.
  - rewrite Hcalls. reflexivity.
  - apply (Hstop (logged start
                    [EvHttp lookup
                       (ReplyRaise (RequestException "ConnectionError"))])).
    reflexivity.
Defined.

(** C4 as stated fails for the file as a whole: with MPIN not set, the
    import of the SDK at line 1 has asked api.ipify.org for the public IP
    address before the check of lines 20-28 prints its line and ends the
    process. *)
Lemma import_calls_before_check :
  let w := mock (env_of [("API_KEY", "key"); ("USER_NAME", "A123");
                         ("TOTP_SECRET", "JBSWY3DPEHPK3PXP")])
             (fun _ => login_reply 200 "T1")
             (fun _ _ => data_reply []) in
  let lookup := mkRequest GET "https://api.ipify.org" ∅ None in
  getenv w "MPIN" = None /\
  trace (script (public_ip_lookup w) w start).2 =
    [EvHttp lookup (data_reply []); EvPrint MissingCredentials] /\
  (script (public_ip_lookup w) w start).1 = Exit /\
  network_calls (trace (script (public_ip_lookup w) w start).2) <> [].
Proof.
  intros w lookup. split; [reflexivity |].
  split; [vm_compute; reflexivity |].
  split; [vm_compute; reflexivity |].
  vm_compute. discriminate.
Qed.
